(** * DepremGozlem: the fetch, normalise, persist, distribute pipeline of deprem.py

    A shallow embedding of the parts of [deprem.py] that move earthquake
    records from the upstream API into the SQLite table and from there to the
    tabs: [load_settings], [api_get], [db_upsert_earthquakes],
    [db_fetch_last], [NearTab.refresh_data], [MapTab.refresh],
    [MapGeneratorWorker.run] and [MainWindow.refresh_all].

    Python values are the values [json.load] produces.  Exceptions are
    explicit: a Python expression that can raise is a [result].  The SQLite
    table is the list of its rows in rowid order. *)

From Stdlib Require Import ZArith String Floats Permutation Sorted.
From stdpp Require Import base option list gmap strings pretty.

Set Warnings "-register-all".

Open Scope string_scope.
Open Scope Z_scope.
Open Scope list_scope.

(** ** Python values and the builtins the pipeline calls *)

Module Py.

(** What [json.load] and [Response.json] return.  An object is kept as the
    sequence of its members in document order; as in the Python decoder a
    later member with the same name overrides the value of an earlier one
    ([dict_get]).  A [str] is a sequence of characters. *)
Inductive json :=
| JNull
| JBool (b : bool)
| JInt (z : Z)
| JFloat (f : float)
| JStr (s : string)
| JList (l : list json)
| JDict (kvs : list (string * json)).

(** The exceptions that the modelled code can meet. *)
Inductive exn :=
| AttributeError
| TypeError
| ValueError
| OverflowError
| IndexError
| KeyError
| ProgrammingError.

Inductive result (A : Type) :=
| Ok (a : A)
| Raise (e : exn).
Arguments Ok {A} a.
Arguments Raise {A} e.

#[global] Instance result_ret : MRet result := @Ok.
#[global] Instance result_bind : MBind result :=
  fun A B f m => match m with Ok a => f a | Raise e => Raise e end.

Definition is_ok {A} (r : result A) : bool :=
  match r with Ok _ => true | Raise _ => false end.

(** [float(str)] and [int(str)] are the interpreter's parsers; SQLite's
    conversions between text and numbers are its own.  The pipeline is
    verified for every behaviour of these four functions. *)
Class Runtime := {
  (** [float(s)] for a [str]; [None] is [ValueError] *)
  float_of_str : string -> option float;
  (** [int(s)] for a [str]; [None] is [ValueError] *)
  int_of_str : string -> option Z;
  (** the text SQLite stores for a REAL put in a TEXT column *)
  sqlite_real_text : float -> string;
  (** the number SQLite reads in a text put in a numeric column: an
      integer, a real, or [None] when the text is no number *)
  sqlite_text_number : string -> option (Z + float)
}.

(** [bool(v)] *)
Definition truthy (v : json) : bool :=
  match v with
  | JNull => false
  | JBool b => b
  | JInt z => negb (z =? 0)
  | JFloat f => negb (PrimFloat.is_zero f)
  | JStr s => negb (String.eqb s "")
  | JList l => match l with [] => false | _ => true end
  | JDict kvs => match kvs with [] => false | _ => true end
  end.

(** [a or b] *)
Definition py_or (a b : json) : json := if truthy a then a else b.

(** [d[k]] for an object: the last member named [k]. *)
Fixpoint dict_get (k : string) (kvs : list (string * json)) : option json :=
  match kvs with
  | [] => None
  | (k', v) :: rest =>
      match dict_get k rest with
      | Some v' => Some v'
      | None => if String.eqb k k' then Some v else None
      end
  end.

(** The keys of an object, each once, in the order of first appearance. *)
Fixpoint dict_keys (kvs : list (string * json)) (seen : list string) : list string :=
  match kvs with
  | [] => []
  | (k, _) :: rest =>
      if existsb (String.eqb k) seen then dict_keys rest seen
      else k :: dict_keys rest (k :: seen)
  end.

(** [e.get(k, d)]: only a [dict] has the method. *)
Definition get (e : json) (k : string) (d : json) : result json :=
  match e with
  | JDict kvs => Ok (default d (dict_get k kvs))
  | _ => Raise AttributeError
  end.

(** [float(n)] for an [int]: rounded to nearest, ties to even;
    [OverflowError] when the result is not finite. *)
Definition float_of_Z (z : Z) : float :=
  SF2Prim (binary_normalize prec emax z 0 false).

Definition float_of_int (z : Z) : result float :=
  let f := float_of_Z z in
  if PrimFloat.is_infinity f then Raise OverflowError else Ok f.

(** [int(x)] for a [float]: truncation towards zero. *)
Definition int_of_float (f : float) : result Z :=
  match Prim2SF f with
  | S754_nan => Raise ValueError
  | S754_infinity _ => Raise OverflowError
  | S754_zero _ => Ok 0
  | S754_finite s m e =>
      let a := if 0 <=? e then Z.shiftl (Z.pos m) e else Z.shiftr (Z.pos m) (- e) in
      Ok (if s then - a else a)
  end.

Section Builtins.
Context `{Runtime}.

(** [float(v)] *)
Definition py_float (v : json) : result float :=
  match v with
  | JFloat f => Ok f
  | JInt z => float_of_int z
  | JBool b => Ok (if b then 1%float else 0%float)
  | JStr s => match float_of_str s with Some f => Ok f | None => Raise ValueError end
  | JNull | JList _ | JDict _ => Raise TypeError
  end.

(** [int(v)] *)
Definition py_int (v : json) : result Z :=
  match v with
  | JInt z => Ok z
  | JBool b => Ok (if b then 1 else 0)
  | JFloat f => int_of_float f
  | JStr s => match int_of_str s with Some z => Ok z | None => Raise ValueError end
  | JNull | JList _ | JDict _ => Raise TypeError
  end.

End Builtins.

(** [len(v)] *)
Definition py_len (v : json) : result nat :=
  match v with
  | JList l => Ok (length l)
  | JStr s => Ok (String.length s)
  | JDict kvs => Ok (length (dict_keys kvs []))
  | JNull | JBool _ | JInt _ | JFloat _ => Raise TypeError
  end.

(** [v[i]] for a non-negative literal index [i].  The keys of a decoded
    object are strings, so an integer subscript of a [dict] is a missing
    key. *)
Definition getitem (v : json) (i : nat) : result json :=
  match v with
  | JList l => match nth_error l i with Some x => Ok x | None => Raise IndexError end
  | JStr s => match String.get i s with
              | Some c => Ok (JStr (String c EmptyString))
              | None => Raise IndexError
              end
  | JDict _ => Raise KeyError
  | JNull | JBool _ | JInt _ | JFloat _ => Raise TypeError
  end.

(** [iter(v)]: the elements a [for] loop or a comprehension visits. *)
Definition py_iter (v : json) : result (list json) :=
  match v with
  | JList l => Ok l
  | JStr s => Ok (map (fun c => JStr (String c EmptyString)) (list_ascii_of_string s))
  | JDict kvs => Ok (map JStr (dict_keys kvs []))
  | JNull | JBool _ | JInt _ | JFloat _ => Raise TypeError
  end.

End Py.
Export Py.

(** ** The SQLite side: values, parameter binding, column affinity *)

Module Sqlite.

(** A stored value (the program binds no BLOB). *)
Inductive sqlval :=
| SNull
| SInteger (z : Z)
| SReal (f : float)
| SText (s : string).

Definition int64 (z : Z) : bool := (- 2 ^ 63 <=? z) && (z <? 2 ^ 63).

(** Binding a Python [int]: it has to fit SQLite's 64-bit INTEGER. *)
Definition bind_int (z : Z) : result Z :=
  if int64 z then Ok z else Raise OverflowError.

(** Binding one [?] parameter in the [sqlite3] module: [None], [int]
    ([bool] is an [int]), [float] and [str] are supported; a NaN is bound as
    NULL; a [list] or [dict] is refused ([sqlite3.ProgrammingError],
    [sqlite3.InterfaceError] before Python 3.11). *)
Definition bind (v : json) : result sqlval :=
  match v with
  | JNull => Ok SNull
  | JBool b => Ok (SInteger (if b then 1 else 0))
  | JInt z => z' ← bind_int z; Ok (SInteger z')
  | JFloat f => Ok (if PrimFloat.is_nan f then SNull else SReal f)
  | JStr s => Ok (SText s)
  | JList _ | JDict _ => Raise ProgrammingError
  end.

(** A REAL that is a whole number strictly inside the 64-bit range is kept
    as that INTEGER by the numeric affinities. *)
Definition real_to_integer (f : float) : sqlval :=
  match int_of_float f with
  | Ok z =>
      if PrimFloat.eqb f (float_of_Z z) && (- 2 ^ 63 <? z) && (z <? 2 ^ 63 - 1)
      then SInteger z else SReal f
  | Raise _ => SReal f
  end.

Section Affinity.
Context `{Runtime}.

(** Column affinity TEXT: a number is stored as its text. *)
Definition text_affinity (v : sqlval) : sqlval :=
  match v with
  | SInteger z => SText (pretty z)
  | SReal f => SText (sqlite_real_text f)
  | SNull | SText _ => v
  end.

(** Column affinity INTEGER: a text that reads as a number is stored as
    that number, a whole REAL as an INTEGER. *)
Definition integer_affinity (v : sqlval) : sqlval :=
  match v with
  | SText s =>
      match sqlite_text_number s with
      | Some (inl z) => SInteger z
      | Some (inr f) => real_to_integer f
      | None => SText s
      end
  | SReal f => real_to_integer f
  | SNull | SInteger _ => v
  end.

(** Column affinity REAL: as INTEGER, and an INTEGER is read back as the
    REAL of the same value. *)
Definition real_affinity (v : sqlval) : sqlval :=
  match integer_affinity v with
  | SInteger z => SReal (float_of_Z z)
  | v' => v'
  end.

End Affinity.

(** What [dict(sqlite3.Row)] holds for a stored value. *)
Definition py_of_sql (v : sqlval) : json :=
  match v with
  | SNull => JNull
  | SInteger z => JInt z
  | SReal f => JFloat f
  | SText s => JStr s
  end.

(** One row of table [earthquakes] ([db_init]).  [created_at] is only ever
    bound from a Python [int], which the INTEGER column keeps as it is.
    [airports_json] holds the text [json.dumps(airports)]; the row keeps the
    value that text denotes, which is what [json.loads] gives back. *)
Record row := Row {
  earthquake_id : sqlval;
  provider : sqlval;
  title : sqlval;
  date : sqlval;
  mag : sqlval;
  depth : sqlval;
  lon : sqlval;
  lat : sqlval;
  created_at : Z;
  closestCity_name : sqlval;
  closestCity_code : sqlval;
  closestCity_distance : sqlval;
  closestCity_population : sqlval;
  epiCenter_name : sqlval;
  airports_json : json
}.

(** Two values of the PRIMARY KEY column collide when they are the same
    text; NULL collides with nothing. *)
Definition same_key (a b : sqlval) : bool :=
  match a, b with
  | SText x, SText y => String.eqb x y
  | _, _ => false
  end.

(** [ON CONFLICT(earthquake_id) DO UPDATE SET c = excluded.c] for every
    column [c] but the key. *)
Definition do_update (old excluded : row) : row :=
  {| earthquake_id := earthquake_id old;
     provider := provider excluded;
     title := title excluded;
     date := date excluded;
     mag := mag excluded;
     depth := depth excluded;
     lon := lon excluded;
     lat := lat excluded;
     created_at := created_at excluded;
     closestCity_name := closestCity_name excluded;
     closestCity_code := closestCity_code excluded;
     closestCity_distance := closestCity_distance excluded;
     closestCity_population := closestCity_population excluded;
     epiCenter_name := epiCenter_name excluded;
     airports_json := airports_json excluded |}.

(** [INSERT ... ON CONFLICT DO UPDATE] of one row: the row with the same
    key is updated where it is, otherwise the new row gets the next rowid. *)
Fixpoint upsert_row (r : row) (st : list row) : list row :=
  match st with
  | [] => [r]
  | old :: rest =>
      if same_key (earthquake_id old) (earthquake_id r)
      then do_update old r :: rest
      else old :: upsert_row r rest
  end.

(** [ORDER BY created_at DESC]: the query names no second sort key.  SQLite
    emits rows with equal [created_at] in the order of the table scan, that
    is by rowid; the sort below is that stable sort. *)
Fixpoint insert_desc (r : row) (sorted : list row) : list row :=
  match sorted with
  | [] => [r]
  | x :: rest =>
      if created_at r <? created_at x then x :: insert_desc r rest
      else r :: x :: rest
  end.

Definition order_by_created_at_desc (st : list row) : list row :=
  foldr insert_desc [] st.

(** [LIMIT n]: a negative [n] is no limit. *)
Definition sql_limit (n : Z) (rows : list row) : list row :=
  if n <? 0 then rows else take (Z.to_nat n) rows.

End Sqlite.
Export Sqlite.

(** ** Settings *)

(** A settings dictionary.  Every key the program reads is a string; an
    update from a sequence of pairs can also assign other keys, which are
    kept, in the order of assignment, in [extra]. *)
Record settings := Settings {
  by_name : gmap string json;
  extra : list (json * json)
}.

Definition DEFAULT_SETTINGS : settings :=
  {| by_name := {[ "theme" := JStr "dark";
                   "mag_threshold_for_notification" := JFloat 5.5;
                   "auto_refresh_minutes" := JInt 5;
                   "map_min_mag" := JFloat 0 ]};
     extra := [] |}.

(** What [load_settings] finds at [SETTINGS_FILE]. *)
Inductive settings_file :=
| Missing
| Unreadable
| Parsed (s : json).

(** [hash(k)] succeeds *)
Definition hashable (k : json) : bool :=
  match k with
  | JList _ | JDict _ => false
  | _ => true
  end.

(** [d[k] = v] *)
Definition setitem (k v : json) (d : settings) : result settings :=
  match k with
  | JStr s => Ok {| by_name := <[s := v]> (by_name d); extra := extra d |}
  | _ => if hashable k
         then Ok {| by_name := by_name d; extra := extra d ++ [(k, v)] |}
         else Raise TypeError
  end.

(** One element of the argument of [dict.update] when that argument is not
    a mapping: it has to be a sequence of length two. *)
Definition update_item (d : settings) (item : json) : result settings :=
  xs ← py_iter item;
  match xs with
  | [k; v] => setitem k v d
  | _ => Raise ValueError
  end.

Fixpoint update_items (d : settings) (items : list json) : result settings :=
  match items with
  | [] => Ok d
  | item :: rest => d' ← update_item d item; update_items d' rest
  end.

(** [d.update(s)] *)
Definition update (d : settings) (s : json) : result settings :=
  match s with
  | JDict kvs =>
      Ok {| by_name := foldl (fun m kv => <[kv.1 := kv.2]> m) (by_name d) kvs;
            extra := extra d |}
  | _ => items ← py_iter s; update_items d items
  end.

Definition load_settings (file : settings_file) : settings :=
  match file with
  | Missing => DEFAULT_SETTINGS
  | Unreadable => DEFAULT_SETTINGS
  | Parsed s =>
      match update DEFAULT_SETTINGS s with
      | Ok d => d
      | Raise _ => DEFAULT_SETTINGS
      end
  end.

(** [s.get(k, d)] on a settings dictionary, for a string [k] *)
Definition settings_get (s : settings) (k : string) (d : json) : json :=
  default d (by_name s !! k).

(** ** The data source *)

Definition API_LIVE : string := "https://api.orhanaydogdu.com.tr/deprem/kandilli/live".
Definition API_ARCHIVE : string := "https://api.orhanaydogdu.com.tr/deprem/kandilli/archive".

(** What [requests.get] and [r.json()] do for one call: the request raises
    (connection, timeout), or a response arrives with a status and a body
    that [r.json()] decodes or not. *)
Inductive http_outcome :=
| TransportError
| Response (status : Z) (body : option json).

(** What the program writes to its log and shows to the user. *)
Inductive event :=
| Request (url : string) (params : list (string * string))
| LoggedApiError (url : string)
| LoggedUpsertError (ex : exn)
| TrayMessage (m : float) (shown_title : json)
| HomeOverview (rows : list row)
| MapSetData (rows : list row)
| MapWorkerStarted
| NearTable (rows : list row)
| AnalysisData (rows : list row)
| Refreshed (n : nat)
| LoggedRefreshError (ex : exn).

(** [Response.raise_for_status] raises for a 4xx or 5xx status. *)
Definition raise_for_status (status : Z) : bool :=
  (400 <=? status) && (status <? 600).

(** [api_get], given the outcome of its request: the list returned and the
    diagnostics logged. *)
Definition api_get (url : string) (o : http_outcome) : list json * list event :=
  match o with
  | TransportError => ([], [LoggedApiError url])
  | Response status body =>
      if raise_for_status status then ([], [LoggedApiError url])
      else match body with
           | None => ([], [LoggedApiError url])
           | Some (JDict kvs) =>
               match dict_get "result" kvs with
               | Some (JList l) => (l, [])
               | _ => ([], [])
               end
           | Some (JList l) => (l, [])
           | Some _ => ([], [])
           end
  end.

(** ** The local store *)

(** The fifteen values [db_upsert_earthquakes] computes for one record and
    passes to [cur.execute]. *)
Record params := Params {
  p_gid : json;
  p_prov : json;
  p_title : json;
  p_date : json;
  p_mag : float;
  p_depth : float;
  p_lon : float;
  p_lat : float;
  p_created_at : Z;
  p_cc_name : json;
  p_cc_code : json;
  p_cc_dist : json;
  p_cc_pop : json;
  p_epi_name : json;
  p_airports : json
}.

Section Store.
Context `{Runtime}.

(** [e.get(k) or d] *)
Definition get_or (e : json) (k : string) (d : json) : result json :=
  v ← get e k JNull; Ok (py_or v d).

(** [float(e.get(k) or 0)] *)
Definition get_float (e : json) (k : string) : result float :=
  v ← get_or e k (JInt 0); py_float v.

(** [geo = e.get("geojson", {}).get("coordinates", [0,0])] *)
Definition coordinates (e : json) : result json :=
  g ← get e "geojson" (JDict []);
  get g "coordinates" (JList [JInt 0; JInt 0]).

(** [float(geo[i]) if len(geo)>i else 0.0] *)
Definition coordinate (geo : json) (i : nat) : result float :=
  n ← py_len geo;
  if (i <? n)%nat then x ← getitem geo i; py_float x else Ok 0%float.

(** The body of the [try] up to [cur.execute]; [now] is [int(time.time())]. *)
Definition row_params (now : Z) (e : json) : result params :=
  gid ← get_or e "earthquake_id" (JStr "");
  prov ← get_or e "provider" (JStr "");
  ttl ← get_or e "title" (JStr "");
  d1 ← get e "date" JNull;
  dt ← (if truthy d1 then Ok d1 else get_or e "date_time" (JStr ""));
  m ← get_float e "mag";
  dp ← get_float e "depth";
  geo ← coordinates e;
  x ← coordinate geo 0;
  y ← coordinate geo 1;
  c ← get_or e "created_at" (JInt now);
  created ← py_int c;
  lp0 ← get e "location_properties" (JDict []);
  let lp := py_or lp0 (JDict []) in
  cc0 ← get lp "closestCity" (JDict []);
  let cc := py_or cc0 (JDict []) in
  cc_name ← get cc "name" JNull;
  cc_code ← get cc "cityCode" JNull;
  cc_dist ← get cc "distance" JNull;
  cc_pop ← get cc "population" JNull;
  epi0 ← get lp "epiCenter" (JDict []);
  let epi := py_or epi0 (JDict []) in
  epi_name ← get epi "name" JNull;
  airports ← get lp "airports" (JList []);
  Ok {| p_gid := gid; p_prov := prov; p_title := ttl; p_date := dt;
        p_mag := m; p_depth := dp; p_lon := x; p_lat := y;
        p_created_at := created;
        p_cc_name := cc_name; p_cc_code := cc_code; p_cc_dist := cc_dist;
        p_cc_pop := cc_pop; p_epi_name := epi_name;
        p_airports := py_or airports (JList []) |}.

(** [cur.execute]: the parameters are bound in order, then each column's
    affinity is applied to the value it receives. *)
Definition bind_row (p : params) : result row :=
  gid ← bind (p_gid p);
  prov ← bind (p_prov p);
  ttl ← bind (p_title p);
  dt ← bind (p_date p);
  m ← bind (JFloat (p_mag p));
  dp ← bind (JFloat (p_depth p));
  x ← bind (JFloat (p_lon p));
  y ← bind (JFloat (p_lat p));
  created ← bind_int (p_created_at p);
  cc_name ← bind (p_cc_name p);
  cc_code ← bind (p_cc_code p);
  cc_dist ← bind (p_cc_dist p);
  cc_pop ← bind (p_cc_pop p);
  epi_name ← bind (p_epi_name p);
  Ok {| earthquake_id := text_affinity gid;
        provider := text_affinity prov;
        title := text_affinity ttl;
        date := text_affinity dt;
        mag := real_affinity m;
        depth := real_affinity dp;
        lon := real_affinity x;
        lat := real_affinity y;
        created_at := created;
        closestCity_name := text_affinity cc_name;
        closestCity_code := integer_affinity cc_code;
        closestCity_distance := real_affinity cc_dist;
        closestCity_population := integer_affinity cc_pop;
        epiCenter_name := text_affinity epi_name;
        airports_json := p_airports p |}.

(** The row one raw record becomes, or the exception its [try] catches. *)
Definition normalize (now : Z) (e : json) : result row :=
  p ← row_params now e; bind_row p.

(** The loop of [db_upsert_earthquakes] from record number [i] on;
    [clock i] is what [int(time.time())] gives while record [i] is
    processed.  Returns the table and the exceptions logged. *)
Fixpoint upsert_from (clock : nat -> Z) (i : nat) (items : list json)
    (st : list row) : list row * list exn :=
  match items with
  | [] => (st, [])
  | e :: rest =>
      match normalize (clock i) e with
      | Ok r => upsert_from clock (S i) rest (upsert_row r st)
      | Raise ex =>
          let '(st', logged) := upsert_from clock (S i) rest st in
          (st', ex :: logged)
      end
  end.

Definition db_upsert_earthquakes (clock : nat -> Z) (items : list json)
    (st : list row) : list row * list exn :=
  upsert_from clock 0 items st.

(** [db_fetch_last(limit)]; the limit is a bound parameter. *)
Definition db_fetch_last (limit : Z) (st : list row) : result (list row) :=
  n ← bind_int limit; Ok (sql_limit n (order_by_created_at_desc st)).

(** [float(e.get("mag") or 0)] and the same for [depth], on a row read
    back from the table *)
Definition row_mag (r : row) : result float :=
  py_float (py_or (py_of_sql (mag r)) (JInt 0)).

Definition row_depth (r : row) : result float :=
  py_float (py_or (py_of_sql (depth r)) (JInt 0)).

End Store.

(** ** The application: one process, its table and its map worker *)

(** The inputs of a run that the program does not control: the outcome of
    its [n]-th HTTP request, and the clock read for record [i] of the batch
    upserted after [n] requests. *)
Record Env := {
  net : nat -> http_outcome;
  clock : nat -> nat -> Z
}.

(** The state the refresh cycle reads and writes: the table, whether
    [MapTab.thread] is set and running, and the number of requests sent. *)
Record World := {
  db : list row;
  map_thread_running : bool;
  requests_made : nat
}.

Definition set_db (st : list row) (w : World) : World :=
  {| db := st; map_thread_running := map_thread_running w;
     requests_made := requests_made w |}.

Definition set_map_thread_running (b : bool) (w : World) : World :=
  {| db := db w; map_thread_running := b; requests_made := requests_made w |}.

Definition count_request (w : World) : World :=
  {| db := db w; map_thread_running := map_thread_running w;
     requests_made := S (requests_made w) |}.

(** A method of the application: it may raise, it changes the state and it
    leaves events; the state changes made before an exception stay. *)
Record M (A : Type) := Method { run : World -> result A * World * list event }.
Arguments Method {A} run.
Arguments run {A} m w.

#[global] Instance M_ret : MRet M :=
  fun A a => Method (fun w => (Ok a, w, [])).
#[global] Instance M_bind : MBind M :=
  fun A B f m => Method (fun w =>
    match run m w with
    | (Ok a, w1, ev1) =>
        let '(r, w2, ev2) := run (f a) w1 in (r, w2, ev1 ++ ev2)
    | (Raise ex, w1, ev1) => (Raise ex, w1, ev1)
    end).

Definition lift {A} (r : result A) : M A := Method (fun w => (r, w, [])).
Definition emit (ev : event) : M unit := Method (fun w => (Ok (), w, [ev])).
Definition read_world : M World := Method (fun w => (Ok w, w, [])).
Definition modify (f : World -> World) : M unit := Method (fun w => (Ok (), f w, [])).

(** The mode chosen in the map tab's combo box. *)
Inductive map_mode :=
| LiveData
| ArchiveDate (date_str : string).

Section App.
Context `{Runtime}.
Variable env : Env.

(** [api_get] with its request sent. *)
Definition api_get_io (url : string) (params : list (string * string)) : M (list json) :=
  Method (fun w =>
    let '(items, logged) := api_get url (net env (requests_made w)) in
    (Ok items, count_request w, Request url params :: logged)).

Definition fetch_live_earthquakes : M (list json) := api_get_io API_LIVE [].

Definition fetch_archive_earthquakes (date_yyyy_mm_dd : string) : M (list json) :=
  api_get_io API_ARCHIVE [("date", date_yyyy_mm_dd)].

(** [db_upsert_earthquakes] on the application's table. *)
Definition upsert (items : list json) : M unit :=
  Method (fun w =>
    let '(st, logged) := db_upsert_earthquakes (clock env (requests_made w)) items (db w) in
    (Ok (), set_db st w, map LoggedUpsertError logged)).

(** [db_fetch_last] on the application's table. *)
Definition fetch_last (limit : Z) : M (list row) :=
  Method (fun w => (db_fetch_last limit (db w), w, [])).

(** [HomeTab.update_overview]: the magnitude of every row is converted. *)
Definition HomeTab_update_overview (rows : list row) : M unit :=
  _ ← lift (mapM row_mag rows);
  emit (HomeOverview rows).

(** [MapTab.refresh]: nothing happens while the worker thread runs;
    otherwise a new thread and worker are started. *)
Definition MapTab_refresh : M unit :=
  w ← read_world;
  if map_thread_running w then mret ()
  else _ ← modify (set_map_thread_running true); emit MapWorkerStarted.

Definition MapTab_set_data (rows : list row) : M unit :=
  _ ← emit (MapSetData rows);
  MapTab_refresh.

(** [MapGeneratorWorker.run] up to the drawing of the map, followed by
    [_on_thread_finished]: both of the worker's signals quit the thread. *)
Definition MapGeneratorWorker_run (has_folium : bool) (mode : map_mode) : M unit :=
  _ ← (if has_folium then
         eqs ← match mode with
               | LiveData => fetch_live_earthquakes
               | ArchiveDate d => fetch_archive_earthquakes d
               end;
         upsert eqs
       else mret ());
  modify (set_map_thread_running false).

(** [isinstance(v, str)], what [str.join] asks of every item *)
Definition is_str (v : json) : bool :=
  match v with JStr _ => true | _ => false end.

(** The part of the loop of [NearTab.refresh_data] over one row that can
    raise: the names of the airports are collected and joined, the airports
    are visited once more for their distances (the body of that loop catches
    everything), and the magnitude and the depth are formatted. *)
Definition near_row (r : row) : result unit :=
  let airports := airports_json r in
  _ ← (if truthy airports then
         items ← py_iter airports;
         names ← mapM (fun a => get a "name" (JStr "")) items;
         if forallb is_str names then Ok () else Raise TypeError
       else Ok ());
  _ ← py_iter airports;
  _ ← row_mag r;
  _ ← row_depth r;
  Ok ().

(** [NearTab.refresh_data]: with an empty table the live feed is fetched
    and upserted first. *)
Definition NearTab_refresh_data : M unit :=
  rows ← fetch_last 200;
  rows ← (match rows with
          | [] => eqs ← fetch_live_earthquakes;
                  _ ← upsert eqs;
                  fetch_last 200
          | _ => mret rows
          end);
  _ ← lift (mapM near_row rows);
  emit (NearTable rows).

Definition AnalysisTab_set_data (rows : list row) : M unit :=
  emit (AnalysisData rows).

(** [float(self.settings.get("mag_threshold_for_notification",5.5))], 5.5
    when the conversion raises *)
Definition threshold (s : settings) : float :=
  match py_float (settings_get s "mag_threshold_for_notification" (JFloat 5.5)) with
  | Ok th => th
  | Raise _ => 5.5%float
  end.

(** The [if live:] block of [refresh_all]: the batch is upserted, then the
    magnitude of its first record is compared with the threshold. *)
Definition store_and_notify (s : settings) (live : list json) : M unit :=
  match live with
  | [] => mret ()
  | top :: _ =>
      _ ← upsert live;
      let th := threshold s in
      m ← lift (get_float top "mag");
      if PrimFloat.leb th m then
        shown ← lift (get top "title" (JStr ""));
        emit (TrayMessage m shown)
      else mret ()
  end.

(** The statements of [refresh_all] after the [if live:] block: the latest
    200 rows are read back and handed to the tabs. *)
Definition reload_and_distribute : M unit :=
  rows ← fetch_last 200;
  _ ← HomeTab_update_overview rows;
  _ ← MapTab_set_data rows;
  _ ← NearTab_refresh_data;
  _ ← AnalysisTab_set_data rows;
  _ ← lift (mapM row_mag rows);
  emit (Refreshed (length rows)).

(** The body of the [try] of [MainWindow.refresh_all]. *)
Definition refresh_all_try (s : settings) : M unit :=
  live ← fetch_live_earthquakes;
  _ ← store_and_notify s live;
  reload_and_distribute.

(** [MainWindow.refresh_all]: an exception is logged and the cycle ends. *)
Definition refresh_all (s : settings) (w : World) : World * list event :=
  match run (refresh_all_try s) w with
  | (Ok _, w', evs) => (w', evs)
  | (Raise ex, w', evs) => (w', evs ++ [LoggedRefreshError ex])
  end.

End App.

(** ** Properties of the table used as specifications *)

(** The PRIMARY KEY constraint: no two rows have colliding keys. *)
Fixpoint unique_ids (st : list row) : bool :=
  match st with
  | [] => true
  | r :: rest =>
      forallb (fun x => negb (same_key (earthquake_id r) (earthquake_id x))) rest
      && unique_ids rest
  end.

(** The row is stored under the text key [k]. *)
Definition has_id (k : string) (r : row) : bool :=
  same_key (earthquake_id r) (SText k).

(** The table after a history of calls of [db_upsert_earthquakes], each with
    its clock and its batch, starting from the empty table of [db_init]. *)
Definition store_after `{Runtime} (history : list ((nat -> Z) * list json)) : list row :=
  foldl (fun st call => (db_upsert_earthquakes call.1 call.2 st).1) [] history.

(** The value at key [k] of an object is missing or false in a condition. *)
Definition falsy_at (k : string) (kvs : list (string * json)) : bool :=
  negb (truthy (default JNull (dict_get k kvs))).


(** The event is a tray message; the event reports a failed cycle. *)
Definition is_tray_message (ev : event) : bool :=
  match ev with TrayMessage _ _ => true | _ => false end.

Definition is_refresh_error (ev : event) : bool :=
  match ev with LoggedRefreshError _ => true | _ => false end.

(** The key column has affinity TEXT: a stored key is a text or NULL. *)
Definition key_is_text_or_null (r : row) : bool :=
  match earthquake_id r with
  | SNull | SText _ => true
  | SInteger _ | SReal _ => false
  end.


(** Events that are neither a notification nor the report of a failed
    cycle. *)
Definition plain (ev : event) : bool :=
  match ev with
  | TrayMessage _ _ | LoggedRefreshError _ => false
  | _ => true
  end.

(** A method is tame for [P] when all its events satisfy [P] and it never
    decreases the number of requests sent. *)
Definition tame (P : event -> bool) {A} (m : M A) : Prop :=
  forall w, forallb P (run m w).2 = true /\
            (requests_made w <= requests_made (run m w).1.2)%nat.

(** The method leaves the table as it is. *)
Definition keeps_db {A} (m : M A) : Prop := forall w, db (run m w).1.2 = db w.

(** The rows can be shown by the overview and by the table. *)
Definition renders `{Runtime} (rows : list row) : bool :=
  is_ok (mapM row_mag rows) && is_ok (mapM near_row rows).

(** ** Values for the examples *)

(** A runtime whose parsers read no string as a number. *)
Definition example_runtime : Runtime :=
  {| float_of_str := fun _ => None;
     int_of_str := fun _ => None;
     sqlite_real_text := fun _ => "";
     sqlite_text_number := fun _ => None |}.

Definition example_clock : nat -> Z := fun _ => 1700000000.

Definition initial_world : World :=
  {| db := []; map_thread_running := false; requests_made := 0 |}.

(** A world whose map worker is still running. *)
Definition busy_world : World :=
  {| db := []; map_thread_running := true; requests_made := 0 |}.

(** The two records of the end-to-end example of the specification (the
    first magnitude is 6.5 here). *)
Definition example_feed : json :=
  JList [JDict [("earthquake_id", JStr "a"); ("mag", JFloat 6.5);
                ("geojson", JDict [("coordinates", JList [JFloat 29; JFloat 41])]);
                ("created_at", JInt 1000)];
         JDict [("earthquake_id", JStr "b"); ("mag", JFloat 3);
                ("geojson", JDict [("coordinates", JList [JFloat 35; JFloat 39])]);
                ("created_at", JInt 2000)]].

Definition example_env : Env :=
  {| net := fun _ => Response 200 (Some example_feed);
     clock := fun _ => example_clock |}.

(** Every request fails. *)
Definition offline_env : Env :=
  {| net := fun _ => TransportError; clock := fun _ => example_clock |}.

(** The default settings with [th] for notification threshold. *)
Definition example_settings (th : json) : settings :=
  {| by_name := <["mag_threshold_for_notification" := th]> (by_name DEFAULT_SETTINGS);
     extra := extra DEFAULT_SETTINGS |}.

(** ** Presentation: colours, the map, the table click, the risk heuristic *)

(** [mag_to_color] *)
Definition mag_to_color (m : float) : string :=
  if PrimFloat.leb 7 m then "darkred"
  else if PrimFloat.leb 6 m then "red"
  else if PrimFloat.leb 5 m then "orange"
  else if PrimFloat.leb 4 m then "yellow"
  else if PrimFloat.leb 3 m then "lightgreen"
  else "blue".

(** [max(n, x)] for a small [int] [n] and a [float] [x]: [x] when [x > n],
    otherwise [n]. *)
Definition max_int_float (n : Z) (x : float) : float :=
  if PrimFloat.ltb (float_of_Z n) x then x else float_of_Z n.

(** One [folium.CircleMarker] of [MapGeneratorWorker.run]. *)
Record marker := Marker {
  m_lat : float;
  m_lon : float;
  m_radius : float;
  m_color : string;
  m_mag : float;
  m_title : json;
  m_date : json;
  m_depth : float
}.

(** What is put on the map: circle markers, in a cluster or not, or the
    points [[lat, lon, mag]] of a heat map (none when the list is empty). *)
Inductive map_layer :=
| CircleMarkers (clustered : bool) (ms : list marker)
| HeatLayer (points : list (float * float * float)).

(** The map the worker saves: its centre [[lat, lon]] and its layer. *)
Record map_artifact := MapArtifact {
  location : float * float;
  layer : map_layer
}.

(** The arguments [NearTab._clicked] passes to [on_row_focus]. *)
Record focus := Focus {
  f_lat : float;
  f_lon : float;
  f_mag : float;
  f_title : json
}.

(** [l[i]] for a list and any [int]: a negative index counts from the end. *)
Definition py_index {A} (l : list A) (i : Z) : result A :=
  let n := Z.of_nat (length l) in
  let j := if i <? 0 then n + i else i in
  if (0 <=? j) && (j <? n)
  then match nth_error l (Z.to_nat j) with Some x => Ok x | None => Raise IndexError end
  else Raise IndexError.

Section Presentation.
Context `{Runtime}.

(** [[e for e in eqs if float(e.get("mag") or 0) >= min_mag]] *)
Fixpoint filter_min_mag (min_mag : float) (eqs : list json) : result (list json) :=
  match eqs with
  | [] => Ok []
  | e :: rest =>
      m ← get_float e "mag";
      kept ← filter_min_mag min_mag rest;
      Ok (if PrimFloat.leb min_mag m then e :: kept else kept)
  end.

(** [coords = e.get("geojson", {}).get("coordinates", d)] followed by
    [float(coords[0])], [float(coords[1])]: longitude, then latitude. *)
Definition lon_lat (e : json) (d : json) : result (float * float) :=
  g ← get e "geojson" (JDict []);
  coords ← get g "coordinates" d;
  c0 ← getitem coords 0;
  x ← py_float c0;
  c1 ← getitem coords 1;
  y ← py_float c1;
  Ok (x, y).

(** The body of the two marker loops. *)
Definition circle_marker (e : json) : result marker :=
  xy ← lon_lat e (JList [JInt 0; JInt 0]);
  m ← get_float e "mag";
  ttl ← get e "title" (JStr "");
  dt ← get e "date" (JStr "");
  dp ← get_float e "depth";
  Ok {| m_lat := xy.2; m_lon := xy.1;
        m_radius := max_int_float 4 (m * 1.5)%float;
        m_color := mag_to_color m;
        m_mag := m; m_title := ttl; m_date := dt; m_depth := dp |}.

(** The body of the heat map loop. *)
Definition heat_point (e : json) : result (float * float * float) :=
  xy ← lon_lat e (JList [JInt 0; JInt 0]);
  m ← get_float e "mag";
  Ok (xy.2, xy.1, m).

(** [MapGeneratorWorker.run] from the filter to the finished map, for the
    batch [eqs] it fetched: any exception ends in the [error] signal and no
    map. *)
Definition MapGeneratorWorker_draw (min_mag : float) (cluster_mode : string)
    (eqs : list json) : result map_artifact :=
  eqs_f ← filter_min_mag min_mag eqs;
  centre ← match eqs_f with
           | first :: _ =>
               xy ← lon_lat first (JList [JFloat 35; JFloat 39]);
               Ok (xy.2, xy.1)
           | [] => Ok (39%float, 35%float)
           end;
  lay ← (if String.eqb cluster_mode "MarkerCluster" then
           ms ← mapM circle_marker eqs_f; Ok (CircleMarkers true ms)
         else if String.eqb cluster_mode "HeatMap" then
           pts ← mapM heat_point eqs_f; Ok (HeatLayer pts)
         else
           ms ← mapM circle_marker eqs_f; Ok (CircleMarkers false ms));
  Ok {| location := centre; layer := lay |}.

(** [NearTab._clicked] for the source row [row_ix]: the focus handed to the
    map, or nothing when the [try] caught an exception. *)
Definition NearTab_clicked (last_data : list row) (row_ix : Z) : option focus :=
  match
    e ← py_index last_data row_ix;
    x ← py_float (py_of_sql (lon e));
    y ← py_float (py_of_sql (lat e));
    m ← row_mag e;
    Ok {| f_lat := y; f_lon := x; f_mag := m; f_title := py_of_sql (title e) |}
  with
  | Ok f => Some f
  | Raise _ => None
  end.

(** The interval, in milliseconds, [MainWindow.__init__] gives the timer:
    [max(1,int(self.settings.get("auto_refresh_minutes",5)))*60*1000]. *)
Definition timer_interval (s : settings) : result Z :=
  n ← py_int (settings_get s "auto_refresh_minutes" (JInt 5));
  Ok (Z.max 1 n * 60 * 1000).

End Presentation.

(** The items of the quality combo box of [RiskTab]. *)
Inductive quality :=
| Yetersiz
| Orta
| Iyi.

(** The three results of [RiskTab._calc]. *)
Inductive risk_level :=
| DUSUK
| ORTA
| YUKSEK.

(** [5 if y<1980 else (3 if y<2000 else 1)] *)
Definition year_points (y : Z) : Z :=
  if y <? 1980 then 5 else if y <? 2000 then 3 else 1.

(** [{"Yetersiz":4,"Orta":2,"İyi":0}[q]] *)
Definition quality_points (q : quality) : Z :=
  match q with Yetersiz => 4 | Orta => 2 | Iyi => 0 end.

(** [risk] after the three additions, for [a] year points, [f] floors and
    [b] quality points; [0.4] is the double 0x1.999999999999ap-2. *)
Definition risk_points (a f b : Z) : float :=
  (float_of_Z a + float_of_Z f * 0x1.999999999999ap-2 + float_of_Z b)%float.

Definition risk_level_of (risk : float) : risk_level :=
  if PrimFloat.leb 10 risk then YUKSEK
  else if PrimFloat.leb 6 risk then ORTA
  else DUSUK.

(** [RiskTab._calc]: the level shown for a year, a number of floors and a
    quality. *)
Definition RiskTab_calc (y f : Z) (q : quality) : risk_level :=
  risk_level_of (risk_points (year_points y) f (quality_points q)).

(** ** Further specifications *)

(** The severity the six colours stand for. *)
Definition severity (colour : string) : nat :=
  if String.eqb colour "darkred" then 5
  else if String.eqb colour "red" then 4
  else if String.eqb colour "orange" then 3
  else if String.eqb colour "yellow" then 2
  else if String.eqb colour "lightgreen" then 1
  else 0.

(** The level of the risk computed with exact arithmetic: the score is
    [a + b + 2f/5]. *)
Definition exact_risk_level (a f b : Z) : risk_level :=
  if 50 <=? 5 * (a + b) + 2 * f then YUKSEK
  else if 30 <=? 5 * (a + b) + 2 * f then ORTA
  else DUSUK.

Definition risk_rank (l : risk_level) : nat :=
  match l with DUSUK => 0 | ORTA => 1 | YUKSEK => 2 end.

Definition risk_level_eqb (l1 l2 : risk_level) : bool :=
  Nat.eqb (risk_rank l1) (risk_rank l2).

(** The key of the row is a text. *)
Definition key_is_text (r : row) : bool :=
  match earthquake_id r with SText _ => true | _ => false end.

(** A list of objects, each without a name or with a string for name. *)
Definition airports_ok (v : json) : bool :=
  match v with
  | JList l =>
      forallb (fun a => match a with
                        | JDict kvs => match dict_get "name" kvs with
                                       | None | Some (JStr _) => true
                                       | Some _ => false
                                       end
                        | _ => false
                        end) l
  | _ => false
  end.

(** What one stored row asks of the tabs: its time fits 64 bits, its
    magnitude and depth convert. *)
Definition row_converts `{Runtime} (r : row) : bool :=
  int64 (created_at r) && is_ok (row_mag r) && is_ok (row_depth r).

(** The method sends at most [n] requests. *)
Definition sends_at_most (n : nat) {A} (m : M A) : Prop :=
  forall w, (requests_made (run m w).1.2 <= requests_made w + n)%nat.

(** Position of a float on a line of integer triples in lexicographic
    order; a NaN has none. *)
Definition sf_key (f : spec_float) : option (Z * Z * Z) :=
  match f with
  | S754_nan => None
  | S754_infinity true => Some (-2, 0, 0)
  | S754_finite true m e => Some (-1, - e, - Z.pos m)
  | S754_zero _ => Some (0, 0, 0)
  | S754_finite false m e => Some (1, e, Z.pos m)
  | S754_infinity false => Some (2, 0, 0)
  end.

Definition key_le (k1 k2 : Z * Z * Z) : Prop :=
  let '(a1, b1, c1) := k1 in
  let '(a2, b2, c2) := k2 in
  a1 < a2 \/ (a1 = a2 /\ (b1 < b2 \/ (b1 = b2 /\ c1 <= c2))).

Definition key_lt (k1 k2 : Z * Z * Z) : Prop :=
  let '(a1, b1, c1) := k1 in
  let '(a2, b2, c2) := k2 in
  a1 < a2 \/ (a1 = a2 /\ (b1 < b2 \/ (b1 = b2 /\ c1 < c2))).

(** The records of [example_feed]. *)
Definition example_records : list json :=
  match example_feed with JList l => l | _ => [] end.

(** The rows a batch writes, in the order of the batch. *)
Fixpoint batch_rows `{Runtime} (clk : nat -> Z) (i : nat) (items : list json) : list row :=
  match items with
  | [] => []
  | e :: rest =>
      match normalize (clk i) e with
      | Ok r => r :: batch_rows clk (S i) rest
      | Raise _ => batch_rows clk (S i) rest
      end
  end.

(** Rows upserted one after the other. *)
Definition upsert_rows (rs : list row) (st : list row) : list row :=
  foldl (fun st r => upsert_row r st) st rs.

(** The table has a row whose key collides with the key of [r]. *)
Definition has_key (st : list row) (r : row) : bool :=
  existsb (fun x => same_key (earthquake_id x) (earthquake_id r)) st.

(** What the upsert of [r] does to a row [x] already in the table. *)
Definition replace_by (r x : row) : row :=
  if same_key (earthquake_id x) (earthquake_id r) then do_update x r else x.

Definition replace_all (rs : list row) (x : row) : row :=
  foldl (fun x r => replace_by r x) x rs.

(** The method leaves a table that is not empty as it is. *)
Definition keeps_filled_db {A} (m : M A) : Prop :=
  forall w, db w <> [] -> db (run m w).1.2 = db w.

(** The values of the floor spin box of [RiskTab]: 1 to 50. *)
Definition floor_values : list Z := map Z.of_nat (seq 1 50).

(** [max(eqs, key=lambda x: float(x.get("mag") or 0))] of
    [HomeTab.update_overview], after its first row: the row kept so far is
    replaced by a row whose magnitude is greater. *)
Fixpoint max_by_mag `{Runtime} (best : row) (best_mag : float) (rest : list row)
    : result row :=
  match rest with
  | [] => Ok best
  | r :: rest' =>
      m ← row_mag r;
      if PrimFloat.ltb best_mag m then max_by_mag r m rest'
      else max_by_mag best best_mag rest'
  end.

(** The row [update_overview] shows as the largest; none for no rows. *)
Definition largest_row `{Runtime} (rows : list row) : result (option row) :=
  match rows with
  | [] => Ok None
  | r :: rest => m ← row_mag r; best ← max_by_mag r m rest; Ok (Some best)
  end.

(** * Proofs *)

(** ** Exceptions *)

Lemma bind_Ok {A B} (m : result A) (f : A -> result B) (b : B) :
  m ≫= f = Ok b -> exists a, m = Ok a /\ f a = Ok b.
Proof. destruct m as [a|ex]; simpl; [eauto | discriminate]. Qed.

Ltac inv_binds :=
  repeat match goal with
  | H : _ ≫= _ = Ok _ |- _ =>
      let a := fresh "a" in let E := fresh "E" in
      apply bind_Ok in H; destruct H as (a & E & H)
  | H : Ok _ = Ok _ |- _ => injection H as H
  end.

(** ** The table: keys *)

Lemma same_key_true (a b : sqlval) :
  same_key a b = true -> exists k, a = SText k /\ b = SText k.
Proof.
  destruct a, b; simpl; try discriminate.
  intros E%String.eqb_eq. subst. eauto.
Qed.

Lemma same_key_sym (a b : sqlval) : same_key a b = same_key b a.
Proof. destruct a, b; simpl; auto using String.eqb_sym. Qed.

Lemma has_id_refl (k : string) (r : row) :
  earthquake_id r = SText k -> has_id k r = true.
Proof. unfold has_id. intros ->. simpl. apply String.eqb_refl. Qed.

Lemma do_update_collision (old r : row) :
  same_key (earthquake_id old) (earthquake_id r) = true -> do_update old r = r.
Proof.
  intros (k & E1 & E2)%same_key_true.
  destruct r; unfold do_update; simpl in *. congruence.
Qed.

Lemma forallb_upsert_row (P : row -> bool) (r : row) (st : list row) :
  (forall old, P old = true -> P (do_update old r) = true) ->
  P r = true -> forallb P st = true -> forallb P (upsert_row r st) = true.
Proof.
  intros Hupd Hr. induction st as [|old rest IH]; simpl.
  - now rewrite Hr.
  - intros [Hold Hrest]%andb_true_iff.
    destruct (same_key (earthquake_id old) (earthquake_id r)); simpl.
    + now rewrite (Hupd _ Hold).
    + now rewrite Hold, IH.
Qed.

Lemma upsert_row_unique (r : row) (st : list row) :
  unique_ids st = true -> unique_ids (upsert_row r st) = true.
Proof.
  induction st as [|old rest IH]; simpl; [reflexivity|].
  intros [Hold Hrest]%andb_true_iff.
  destruct (same_key (earthquake_id old) (earthquake_id r)) eqn:E; simpl.
  - now rewrite Hold, Hrest.
  - rewrite (IH Hrest), andb_true_r.
    apply forallb_upsert_row; [intros x Hx; exact Hx | now rewrite E | exact Hold].
Qed.

Lemma filter_no_collision (k : string) (st : list row) :
  forallb (fun x => negb (same_key (SText k) (earthquake_id x))) st = true ->
  List.filter (has_id k) st = [].
Proof.
  induction st as [|x rest IH]; cbn [forallb List.filter]; [reflexivity|].
  intros [Hx Hrest]%andb_true_iff. apply negb_true_iff in Hx.
  unfold has_id at 1.
  rewrite (same_key_sym (earthquake_id x) (SText k)), Hx. auto.
Qed.

Lemma filter_has_id_upsert_row (k : string) (r : row) (st : list row) :
  unique_ids st = true -> earthquake_id r = SText k ->
  List.filter (has_id k) (upsert_row r st) = [r].
Proof.
  intros Hu Hr. induction st as [|old rest IH]; cbn [upsert_row List.filter].
  - now rewrite (has_id_refl k r Hr).
  - cbn [unique_ids] in Hu. apply andb_true_iff in Hu as [Hold Hrest].
    destruct (same_key (earthquake_id old) (earthquake_id r)) eqn:E.
    + rewrite (do_update_collision _ _ E). cbn [List.filter].
      rewrite (has_id_refl k r Hr). f_equal.
      apply filter_no_collision.
      apply same_key_true in E as (k' & E1 & E2).
      assert (k' = k) as -> by congruence.
      now rewrite E1 in Hold.
    + cbn [List.filter]. unfold has_id at 1. rewrite <- Hr, E. auto.
Qed.

(** ** The upsert loop *)

Section StoreFacts.
Context `{Runtime}.

Lemma upsert_from_cons (clk : nat -> Z) (i : nat) (e : json) (rest : list json)
    (st : list row) :
  upsert_from clk i (e :: rest) st =
  match normalize (clk i) e with
  | Ok r => upsert_from clk (S i) rest (upsert_row r st)
  | Raise ex => ((upsert_from clk (S i) rest st).1, ex :: (upsert_from clk (S i) rest st).2)
  end.
Proof. simpl. destruct (normalize (clk i) e); [reflexivity|]. now destruct upsert_from. Qed.

(** A property of the table that every stored row preserves is preserved by
    a whole batch. *)
Lemma upsert_from_invariant (I : list row -> Prop) :
  (forall now e r st, normalize now e = Ok r -> I st -> I (upsert_row r st)) ->
  forall clk items i st, I st -> I (upsert_from clk i items st).1.
Proof.
  intros Hstep clk items. induction items as [|e rest IH]; intros i st Hst.
  - exact Hst.
  - rewrite upsert_from_cons. destruct (normalize (clk i) e) eqn:E; simpl.
    + apply IH. eauto.
    + apply IH. exact Hst.
Qed.

Lemma store_after_invariant (I : list row -> Prop) :
  I [] ->
  (forall now e r st, normalize now e = Ok r -> I st -> I (upsert_row r st)) ->
  forall history, I (store_after history).
Proof.
  intros Hnil Hstep history. unfold store_after.
  generalize (@nil row) Hnil.
  induction history as [|[clk items] rest IH]; intros st Hst; simpl.
  - exact Hst.
  - apply IH. unfold db_upsert_earthquakes.
    now apply upsert_from_invariant.
Qed.

Lemma text_affinity_text_or_null (v : sqlval) :
  match text_affinity v with SNull | SText _ => true | _ => false end = true.
Proof. now destruct v. Qed.

Lemma normalize_key (now : Z) (e : json) (r : row) :
  normalize now e = Ok r -> key_is_text_or_null r = true.
Proof.
  unfold normalize, bind_row. intros Hn. inv_binds. subst r.
  unfold key_is_text_or_null. simpl. apply text_affinity_text_or_null.
Qed.

End StoreFacts.

(** ** Claims about the store *)

(** C8, counterexample: a raw record without [earthquake_id] is stored, and
    its key is the empty string. *)
Lemma empty_id_is_stored :
  map earthquake_id (@store_after example_runtime [(example_clock, [JDict []])])
  = [SText ""].
Proof. reflexivity. Qed.

(** A NaN in [earthquake_id] is bound as NULL, and NULL keys never collide:
    two such records are two rows. *)
Lemma nan_ids_are_null_and_repeat :
  map earthquake_id
    (@store_after example_runtime
       [(example_clock, [JDict [("earthquake_id", JFloat nan)];
                         JDict [("earthquake_id", JFloat nan)]])])
  = [SNull; SNull].
Proof. reflexivity. Qed.

(** C8, amended: after any sequence of upserts of any raw records, no two
    rows of the table have the same text key, and every key is a text
    (possibly the empty one) or NULL. *)
Theorem stored_ids_are_unique `{Runtime} (history : list ((nat -> Z) * list json)) :
  unique_ids (store_after history) = true /\
  forallb key_is_text_or_null (store_after history) = true.
Proof.
  apply (store_after_invariant
           (fun st => unique_ids st = true /\ forallb key_is_text_or_null st = true)).
  - split; reflexivity.
  - intros now e r st Hn [Hu Hk]. split.
    + now apply upsert_row_unique.
    + apply forallb_upsert_row; [intros old Hold; exact Hold | | exact Hk].
      exact (normalize_key now e r Hn).
Qed.

(** C2: from a table that satisfies its PRIMARY KEY constraint, upserting a
    record and then a second record with the same text key leaves exactly one
    row under that key, and this row is the row of the second record alone:
    every column holds the second record's value. *)
Theorem upsert_last_write_wins `{Runtime} (clk1 clk2 : nat -> Z) (e e' : json)
    (r r' : row) (k : string) (st : list row) :
  unique_ids st = true ->
  normalize (clk1 0%nat) e = Ok r ->
  normalize (clk2 0%nat) e' = Ok r' ->
  earthquake_id r = SText k ->
  earthquake_id r' = SText k ->
  let st1 := (db_upsert_earthquakes clk1 [e] st).1 in
  let st2 := (db_upsert_earthquakes clk2 [e'] st1).1 in
  List.filter (has_id k) st2 = [r'] /\ unique_ids st2 = true.
Proof.
  intros Hu Hr Hr' Hk Hk' st1 st2. subst st1 st2.
  unfold db_upsert_earthquakes. rewrite !upsert_from_cons, Hr. simpl.
  rewrite Hr'. simpl. split.
  - apply filter_has_id_upsert_row; [now apply upsert_row_unique | exact Hk'].
  - now do 2 apply upsert_row_unique.
Qed.

(** C2, example: two records with key "a"; the second title replaces the
    first. *)
Lemma upsert_last_write_wins_example :
  let e := JDict [("earthquake_id", JStr "a"); ("title", JStr "first")] in
  let e' := JDict [("earthquake_id", JStr "a"); ("title", JStr "second")] in
  let st1 := (@db_upsert_earthquakes example_runtime example_clock [e] []).1 in
  let st2 := (@db_upsert_earthquakes example_runtime example_clock [e'] st1).1 in
  map title (List.filter (has_id "a") st2) = [SText "second"].
Proof.
  intros e e' st1 st2.
  destruct (@upsert_last_write_wins example_runtime example_clock example_clock
              e e' _ _ "a" [] eq_refl eq_refl eq_refl eq_refl eq_refl) as [Hrows _].
  fold st1 st2 in Hrows. rewrite Hrows. reflexivity.
Defined.

(** ** Normalisation of one record *)

Section NormalizeFacts.
Context `{Runtime}.

(** What [sqlite3] binds for a Python [float]. *)
Lemma bind_float (f : float) :
  bind (JFloat f) = Ok (if PrimFloat.is_nan f then SNull else SReal f).
Proof. reflexivity. Qed.

(** The numeric columns of a stored row are the values the extraction
    computed, bound and given the REAL affinity. *)
Lemma normalize_numeric_fields (now : Z) (e : json) (r : row) :
  normalize now e = Ok r ->
  exists m dp geo x y,
    get_float e "mag" = Ok m /\ get_float e "depth" = Ok dp /\
    coordinates e = Ok geo /\ coordinate geo 0 = Ok x /\ coordinate geo 1 = Ok y /\
    mag r = real_affinity (if PrimFloat.is_nan m then SNull else SReal m) /\
    depth r = real_affinity (if PrimFloat.is_nan dp then SNull else SReal dp) /\
    lon r = real_affinity (if PrimFloat.is_nan x then SNull else SReal x) /\
    lat r = real_affinity (if PrimFloat.is_nan y then SNull else SReal y).
Proof.
  unfold normalize. intros Hn.
  apply bind_Ok in Hn as (p & Hp & Hb).
  unfold row_params in Hp.
  repeat match type of Hp with
  | _ ≫= _ = Ok _ =>
      let a := fresh "a" in let E := fresh "E" in
      apply bind_Ok in Hp; destruct Hp as (a & E & Hp)
  end.
  injection Hp as <-.
  unfold bind_row in Hb. cbn [p_gid p_prov p_title p_date p_mag p_depth p_lon p_lat
    p_created_at p_cc_name p_cc_code p_cc_dist p_cc_pop p_epi_name p_airports] in Hb.
  rewrite !bind_float in Hb.
  inv_binds. subst r. cbn [mag depth lon lat].
  subst. do 5 eexists. repeat split; eassumption || reflexivity.
Qed.

Lemma get_float_falsy (kvs : list (string * json)) (k : string) :
  falsy_at k kvs = true -> get_float (JDict kvs) k = Ok 0%float.
Proof.
  unfold falsy_at, get_float, get_or, get, py_or. intros Hf%negb_true_iff.
  simpl. now rewrite Hf.
Qed.

Lemma coordinate_short (geo : json) (n i : nat) :
  py_len geo = Ok n -> (n <= i)%nat -> coordinate geo i = Ok 0%float.
Proof.
  unfold coordinate. intros -> Hle. simpl.
  destruct (i <? n)%nat eqn:E; [|reflexivity].
  apply Nat.ltb_lt in E. lia.
Qed.

Lemma coordinates_without_geojson (kvs : list (string * json)) :
  dict_get "geojson" kvs = None ->
  coordinates (JDict kvs) = Ok (JList [JInt 0; JInt 0]).
Proof. unfold coordinates, get. now intros ->. Qed.

End NormalizeFacts.

(** C1, counterexample: a record whose [mag] is a list, and a record whose
    [geojson] is null, are not stored with 0.0: the conversion raises, the
    exception is logged and the record is skipped. *)
Lemma wrong_typed_record_is_skipped :
  @db_upsert_earthquakes example_runtime example_clock
    [JDict [("earthquake_id", JStr "a"); ("mag", JList [JFloat 6.5])]] []
  = ([], [TypeError]) /\
  @db_upsert_earthquakes example_runtime example_clock
    [JDict [("earthquake_id", JStr "b"); ("geojson", JNull)]] []
  = ([], [AttributeError]).
Proof. split; reflexivity. Qed.

(** C1, amended: [db_upsert_earthquakes] itself never raises: a record is
    stored when every extraction and binding succeeds, and is logged and
    skipped otherwise.  A magnitude or depth that is missing, null or
    otherwise false is extracted as 0.0 without raising; in every stored
    row such a magnitude or depth is the REAL 0.0, and so is a longitude or
    latitude when [geojson] or [coordinates] is missing or the coordinate
    sequence is too short to hold it. *)
Theorem missing_numeric_fields_default_to_zero `{Runtime} (now : Z)
    (kvs : list (string * json)) :
  (forall clk e st,
     db_upsert_earthquakes clk [e] st =
     match normalize (clk 0%nat) e with
     | Ok r => (upsert_row r st, [])
     | Raise ex => (st, [ex])
     end) /\
  (falsy_at "mag" kvs = true -> get_float (JDict kvs) "mag" = Ok 0%float) /\
  (falsy_at "depth" kvs = true -> get_float (JDict kvs) "depth" = Ok 0%float) /\
  (forall r, normalize now (JDict kvs) = Ok r ->
     (falsy_at "mag" kvs = true -> mag r = SReal 0) /\
     (falsy_at "depth" kvs = true -> depth r = SReal 0) /\
     (dict_get "geojson" kvs = None -> lon r = SReal 0 /\ lat r = SReal 0) /\
     (forall g, dict_get "geojson" kvs = Some (JDict g) ->
        dict_get "coordinates" g = None -> lon r = SReal 0 /\ lat r = SReal 0) /\
     (forall geo n, coordinates (JDict kvs) = Ok geo -> py_len geo = Ok n ->
        ((n <= 0)%nat -> lon r = SReal 0) /\ ((n <= 1)%nat -> lat r = SReal 0))).
Proof.
  split; [|split; [|split]].
  - intros clk e st. unfold db_upsert_earthquakes. rewrite upsert_from_cons.
    now destruct (normalize (clk 0%nat) e).
  - apply get_float_falsy.
  - apply get_float_falsy.
  - intros r Hn.
    apply normalize_numeric_fields in Hn
      as (m & dp & geo & x & y & Hm & Hdp & Hgeo & Hx & Hy & -> & -> & -> & ->).
    assert (Hshort : forall n, py_len geo = Ok n ->
              ((n <= 0)%nat -> real_affinity (if PrimFloat.is_nan x then SNull else SReal x) = SReal 0) /\
              ((n <= 1)%nat -> real_affinity (if PrimFloat.is_nan y then SNull else SReal y) = SReal 0)).
    { intros n Hlen. split; intros Hle.
      - rewrite (coordinate_short geo n 0 Hlen Hle) in Hx. now injection Hx as <-.
      - rewrite (coordinate_short geo n 1 Hlen Hle) in Hy. now injection Hy as <-. }
    assert (Hdefault : geo = JList [JInt 0; JInt 0] ->
              real_affinity (if PrimFloat.is_nan x then SNull else SReal x) = SReal 0 /\
              real_affinity (if PrimFloat.is_nan y then SNull else SReal y) = SReal 0).
    { intros ->. injection Hx as <-. injection Hy as <-. split; reflexivity. }
    split; [|split; [|split; [|split]]].
    + intros Hf. rewrite (get_float_falsy _ _ Hf) in Hm. now injection Hm as <-.
    + intros Hf. rewrite (get_float_falsy _ _ Hf) in Hdp. now injection Hdp as <-.
    + intros Hnone. apply Hdefault.
      rewrite (coordinates_without_geojson kvs Hnone) in Hgeo. congruence.
    + intros g Hg Hc. apply Hdefault.
      unfold coordinates, get in Hgeo. rewrite Hg in Hgeo. simpl in Hgeo.
      rewrite Hc in Hgeo. simpl in Hgeo. congruence.
    + intros geo' n Hgeo' Hlen. rewrite Hgeo in Hgeo'. injection Hgeo' as <-.
      apply (Hshort n Hlen).
Qed.

(** C1, example: a record without [mag] and [depth] whose coordinate
    sequence has one element is stored with magnitude, depth and latitude
    0.0. *)
Lemma missing_numeric_fields_example :
  match @normalize example_runtime 5
          (JDict [("earthquake_id", JStr "a");
                  ("geojson", JDict [("coordinates", JList [JFloat 29])])]) with
  | Ok r => mag r = SReal 0 /\ depth r = SReal 0 /\ lat r = SReal 0
  | Raise _ => False
  end.
Proof.
  destruct (@normalize example_runtime 5 _) as [r|ex] eqn:E.
  - destruct (@missing_numeric_fields_default_to_zero example_runtime 5
                [("earthquake_id", JStr "a");
                 ("geojson", JDict [("coordinates", JList [JFloat 29])])])
      as (_ & _ & _ & Hr).
    destruct (Hr r E) as (Hm & Hd & _ & _ & Hs).
    split; [apply Hm; reflexivity | split; [apply Hd; reflexivity|]].
    eapply Hs; [reflexivity | reflexivity | apply Nat.le_refl].
  - vm_compute in E. discriminate E.
Defined.

(** ** [ORDER BY created_at DESC LIMIT ?] *)

Lemma insert_desc_perm (r : row) (l : list row) :
  Permutation (insert_desc r l) (r :: l).
Proof.
  induction l as [|x rest IH]; simpl; [reflexivity|].
  destruct (created_at r <? created_at x); [|reflexivity].
  rewrite IH. apply perm_swap.
Qed.

Lemma order_by_created_at_desc_perm (st : list row) :
  Permutation (order_by_created_at_desc st) st.
Proof.
  induction st as [|r rest IH]; simpl; [reflexivity|].
  rewrite insert_desc_perm. now constructor.
Qed.









(** ** The data source *)

(** C4, counterexample: a response with status 300 is outside 2xx, yet
    [raise_for_status] accepts it and [api_get] returns the records of its
    body. *)
Lemma status_300_is_not_rejected :
  api_get API_LIVE (Response 300 (Some (JList [JDict [("earthquake_id", JStr "a")]])))
  = ([JDict [("earthquake_id", JStr "a")]], []).
Proof. reflexivity. Qed.

(** C4, amended: [api_get] never raises.  When the request fails, the
    status is 4xx or 5xx, or the body is not JSON, it returns the empty list
    and logs a diagnostic.  For any other status (2xx, and also 1xx, 3xx and
    beyond 599) it returns the payload when that is a list, the value under
    "result" when the payload is an object holding a list there, and the
    empty list otherwise, logging nothing. *)
Theorem api_get_outcomes (url : string) (o : http_outcome) :
  (o = TransportError -> api_get url o = ([], [LoggedApiError url])) /\
  (forall status body, o = Response status body -> 400 <= status < 600 ->
     api_get url o = ([], [LoggedApiError url])) /\
  (forall status, o = Response status None ->
     api_get url o = ([], [LoggedApiError url])) /\
  (forall status js, o = Response status (Some js) -> ~ 400 <= status < 600 ->
     api_get url o =
     (match js with
      | JList l => l
      | JDict kvs => match dict_get "result" kvs with Some (JList l) => l | _ => [] end
      | _ => []
      end, [])).
Proof.
  split; [|split; [|split]].
  - now intros ->.
  - intros status body -> [Hlo Hhi]. unfold api_get, raise_for_status.
    replace (400 <=? status) with true by (symmetry; apply Z.leb_le; lia).
    now replace (status <? 600) with true by (symmetry; apply Z.ltb_lt; lia).
  - intros status ->. unfold api_get. now destruct (raise_for_status status).
  - intros status js -> Hst. unfold api_get, raise_for_status.
    destruct (400 <=? status) eqn:E1, (status <? 600) eqn:E2; simpl;
      try (apply Z.leb_le in E1; apply Z.ltb_lt in E2; lia);
      destruct js as [| | | | |l|kvs]; try reflexivity;
      destruct (dict_get "result" kvs) as [[]|]; reflexivity.
Qed.

(** C4, example: a 503 answer, and an envelope answered with status 200. *)
Lemma api_get_outcomes_example :
  api_get API_LIVE (Response 503 (Some (JList [JNull]))) = ([], [LoggedApiError API_LIVE]) /\
  api_get API_LIVE (Response 200 (Some (JDict [("status", JBool true);
                                                ("result", JList [JDict []])])))
  = ([JDict []], []).
Proof.
  split.
  - refine (proj1 (proj2 (api_get_outcomes API_LIVE _)) 503 _ eq_refl _).
    split; [discriminate | reflexivity].
  - refine (proj2 (proj2 (proj2 (api_get_outcomes API_LIVE _))) 200 _ eq_refl _).
    intros [Hlo _]. apply Hlo. reflexivity.
Defined.

(** ** Settings *)

Lemma load_settings_without_file :
  load_settings Missing = DEFAULT_SETTINGS /\ load_settings Unreadable = DEFAULT_SETTINGS.
Proof. split; reflexivity. Qed.

(** A parsed value that [dict.update] cannot iterate gives the defaults. *)
Lemma load_settings_scalar (s : json) :
  match s with JNull | JBool _ | JInt _ | JFloat _ => True | _ => False end ->
  load_settings (Parsed s) = DEFAULT_SETTINGS.
Proof. destruct s; simpl; intros []; reflexivity. Qed.

(** C9, the code at the failing input: a settings file that holds the JSON
    array [[["theme", "light"]]] is no JSON object, yet [dict.update]
    accepts a sequence of pairs and the loaded theme is "light", not the
    default. *)
Theorem load_settings_accepts_list_of_pairs :
  let file := Parsed (JList [JList [JStr "theme"; JStr "light"]]) in
  settings_get (load_settings file) "theme" JNull = JStr "light" /\
  settings_get DEFAULT_SETTINGS "theme" JNull = JStr "dark" /\
  load_settings file <> DEFAULT_SETTINGS.
Proof.
  intros file. split; [reflexivity | split; [reflexivity|]].
  intros E. apply (f_equal (fun s => settings_get s "theme" JNull)) in E.
  vm_compute in E. discriminate E.
Qed.

Lemma lookup_update_members (kvs : list (string * json)) (m : gmap string json)
    (k : string) :
  foldl (fun m kv => <[kv.1 := kv.2]> m) m kvs !! k =
  match dict_get k kvs with
  | Some v => Some v
  | None => m !! k
  end.
Proof.
  revert m. induction kvs as [|[k' v] rest IH]; intros m; simpl; [reflexivity|].
  rewrite IH. destruct (dict_get k rest); [reflexivity|].
  destruct (String.eqb_spec k k') as [->|Hne].
  - apply lookup_insert_eq.
  - apply lookup_insert_ne. congruence.
Qed.

(** C10: a settings file that holds a JSON object is merged over the
    defaults key by key: a key of the file has the file's value, any other
    key keeps its default, and the four documented keys are always
    present. *)
Theorem load_settings_merges_object (kvs : list (string * json)) :
  (forall k,
     by_name (load_settings (Parsed (JDict kvs))) !! k =
     match dict_get k kvs with
     | Some v => Some v
     | None => by_name DEFAULT_SETTINGS !! k
     end) /\
  extra (load_settings (Parsed (JDict kvs))) = [] /\
  Forall (fun k => is_Some (by_name (load_settings (Parsed (JDict kvs))) !! k))
    ["theme"; "mag_threshold_for_notification"; "auto_refresh_minutes"; "map_min_mag"].
Proof.
  assert (Hk : forall k,
     by_name (load_settings (Parsed (JDict kvs))) !! k =
     match dict_get k kvs with
     | Some v => Some v
     | None => by_name DEFAULT_SETTINGS !! k
     end) by (intros k; apply lookup_update_members).
  split; [exact Hk | split; [reflexivity|]].
  repeat constructor; rewrite Hk; (destruct (dict_get _ kvs); [eauto|]);
    vm_compute; eauto.
Qed.

(** ** The refresh cycle *)

Lemma run_bind {A B} (m : M A) (f : A -> M B) (w : World) :
  run (m ≫= f) w =
  match run m w with
  | (Ok a, w1, ev1) => ((run (f a) w1).1, ev1 ++ (run (f a) w1).2)
  | (Raise ex, w1, ev1) => (Raise ex, w1, ev1)
  end.
Proof.
  unfold mbind, M_bind. simpl. destruct (run m w) as [[[a|ex] w1] ev1]; [|reflexivity].
  now destruct (run (f a) w1) as [[r w2] ev2].
Qed.

Lemma tame_bind (P : event -> bool) {A B} (m : M A) (f : A -> M B) :
  tame P m -> (forall a, tame P (f a)) -> tame P (m ≫= f).
Proof.
  intros Hm Hf w. rewrite run_bind. specialize (Hm w).
  destruct (run m w) as [[[a|ex] w1] ev1]; simpl in *; [|exact Hm].
  destruct Hm as [Hev Hle]. destruct (Hf a w1) as [Hev' Hle'].
  rewrite forallb_app, Hev, Hev'. split; [reflexivity | lia].
Qed.

Lemma tame_ret (P : event -> bool) {A} (a : A) : tame P (mret a).
Proof. intros w. simpl. auto. Qed.

Lemma tame_lift (P : event -> bool) {A} (r : result A) : tame P (lift r).
Proof. intros w. simpl. auto. Qed.

Lemma tame_emit (P : event -> bool) (ev : event) : P ev = true -> tame P (emit ev).
Proof. intros Hev w. simpl. rewrite Hev. auto. Qed.

Lemma tame_read_world (P : event -> bool) : tame P read_world.
Proof. intros w. simpl. auto. Qed.

Lemma tame_set_map_thread_running (P : event -> bool) (b : bool) :
  tame P (modify (set_map_thread_running b)).
Proof. intros w. simpl. auto. Qed.

Lemma tame_weaken (P Q : event -> bool) {A} (m : M A) :
  (forall ev, P ev = true -> Q ev = true) -> tame P m -> tame Q m.
Proof.
  intros HPQ Hm w. destruct (Hm w) as [Hev Hle]. split; [|exact Hle].
  rewrite forallb_forall in *. auto.
Qed.

Lemma api_get_logs_plain (url : string) (o : http_outcome) :
  forallb plain (api_get url o).2 = true.
Proof.
  destruct o as [|status body]; simpl; [reflexivity|].
  destruct (raise_for_status status); [reflexivity|].
  destruct body as [[| | | | |l|kvs]|]; try reflexivity.
  destruct (dict_get "result" kvs) as [[]|]; reflexivity.
Qed.

Section AppFacts.
Context `{Runtime}.
Variable env : Env.

Lemma run_api_get_io (url : string) (ps : list (string * string)) (w : World) :
  run (api_get_io env url ps) w =
  (Ok (api_get url (net env (requests_made w))).1, count_request w,
   Request url ps :: (api_get url (net env (requests_made w))).2).
Proof. unfold api_get_io. simpl. now destruct api_get. Qed.

Lemma run_upsert (items : list json) (w : World) :
  run (upsert env items) w =
  (Ok (), set_db (db_upsert_earthquakes (clock env (requests_made w)) items (db w)).1 w,
   map LoggedUpsertError
     (db_upsert_earthquakes (clock env (requests_made w)) items (db w)).2).
Proof. unfold upsert. simpl. now destruct db_upsert_earthquakes. Qed.

Lemma tame_api_get_io (url : string) (ps : list (string * string)) :
  tame plain (api_get_io env url ps).
Proof.
  intros w. rewrite run_api_get_io. simpl. split; [apply api_get_logs_plain | lia].
Qed.

Lemma tame_upsert (items : list json) : tame plain (upsert env items).
Proof.
  intros w. rewrite run_upsert. simpl. split; [|lia].
  apply forallb_forall. intros ev [ex [<- _]]%in_map_iff. reflexivity.
Qed.

Lemma tame_fetch_last (limit : Z) : tame plain (fetch_last limit).
Proof. intros w. simpl. auto. Qed.

Lemma tame_MapTab_refresh : tame plain MapTab_refresh.
Proof.
  unfold MapTab_refresh. apply tame_bind; [apply tame_read_world|].
  intros w. destruct (map_thread_running w); [apply tame_ret|].
  apply tame_bind; [apply tame_set_map_thread_running|].
  intros _. now apply tame_emit.
Qed.

Lemma tame_NearTab_refresh_data : tame plain (NearTab_refresh_data env).
Proof.
  unfold NearTab_refresh_data.
  apply tame_bind; [apply tame_fetch_last|]. intros rows.
  apply tame_bind.
  - destruct rows; [|apply tame_ret].
    apply tame_bind; [apply tame_api_get_io|]. intros eqs.
    apply tame_bind; [apply tame_upsert|]. intros _. apply tame_fetch_last.
  - intros rows'. apply tame_bind; [apply tame_lift|]. intros _. now apply tame_emit.
Qed.

Lemma tame_reload_and_distribute : tame plain (reload_and_distribute env).
Proof.
  unfold reload_and_distribute.
  apply tame_bind; [apply tame_fetch_last|]. intros rows.
  apply tame_bind.
  { unfold HomeTab_update_overview. apply tame_bind; [apply tame_lift|].
    intros _. now apply tame_emit. }
  intros _. apply tame_bind.
  { unfold MapTab_set_data. apply tame_bind; [now apply tame_emit|].
    intros _. apply tame_MapTab_refresh. }
  intros _. apply tame_bind; [apply tame_NearTab_refresh_data|].
  intros _. apply tame_bind; [now apply tame_emit|].
  intros _. apply tame_bind; [apply tame_lift|].
  intros _. now apply tame_emit.
Qed.

Lemma tame_store_and_notify (s : settings) (live : list json) :
  tame (fun _ => true) (store_and_notify env s live).
Proof.
  unfold store_and_notify. destruct live as [|top rest]; [apply tame_ret|].
  apply tame_bind; [apply (tame_weaken plain); [auto | apply tame_upsert]|].
  intros _. apply tame_bind; [apply tame_lift|]. intros m.
  destruct (PrimFloat.leb (threshold s) m); [|apply tame_ret].
  apply tame_bind; [apply tame_lift|]. intros shown. now apply tame_emit.
Qed.

End AppFacts.

(** ** The notification *)

Lemma plain_no_tray_message (evs : list event) :
  forallb plain evs = true -> existsb is_tray_message evs = false.
Proof.
  induction evs as [|ev rest IH]; simpl; [reflexivity|].
  intros [Hev Hrest]%andb_true_iff. rewrite (IH Hrest). now destruct ev.
Qed.

Section NotificationFacts.
Context `{Runtime}.

Lemma get_float_needs_dict (e : json) (k : string) (m : float) :
  get_float e k = Ok m -> exists kvs, e = JDict kvs.
Proof. destruct e; try discriminate. eauto. Qed.

(** The [if live:] block shows a tray message exactly when the magnitude
    of the first record converts and reaches the threshold. *)
Lemma store_and_notify_tray (env : Env) (s : settings) (top : json)
    (rest : list json) (w : World) :
  existsb is_tray_message (run (store_and_notify env s (top :: rest)) w).2 =
  match get_float top "mag" with
  | Ok m => PrimFloat.leb (threshold s) m
  | Raise _ => false
  end.
Proof.
  unfold store_and_notify. rewrite run_bind, run_upsert. cbn [fst snd].
  rewrite existsb_app, (plain_no_tray_message (map _ _)).
  2:{ apply forallb_forall. intros ev [ex [<- _]]%in_map_iff. reflexivity. }
  rewrite run_bind. cbn [lift run orb].
  destruct (get_float top "mag") as [m|ex] eqn:Em; [|reflexivity].
  cbn [fst snd app].
  destruct (PrimFloat.leb (threshold s) m); [|reflexivity].
  apply get_float_needs_dict in Em as [kvs ->]. reflexivity.
Qed.

(** Only the [if live:] block can show a tray message. *)
Lemma refresh_all_tray (env : Env) (s : settings) (w : World) :
  existsb is_tray_message (refresh_all env s w).2 =
  existsb is_tray_message
    (run (store_and_notify env s (api_get API_LIVE (net env (requests_made w))).1)
         (count_request w)).2.
Proof.
  unfold refresh_all, refresh_all_try, fetch_live_earthquakes.
  rewrite run_bind, run_api_get_io.
  set (live := (api_get API_LIVE (net env (requests_made w))).1).
  set (logged := (api_get API_LIVE (net env (requests_made w))).2).
  assert (Hlogged : existsb is_tray_message logged = false)
    by apply plain_no_tray_message, api_get_logs_plain.
  rewrite run_bind.
  destruct (run (store_and_notify env s live) (count_request w))
    as [[[u|ex] w2] ev2]; cbn [fst snd].
  - pose proof (tame_reload_and_distribute env w2) as [Hd%plain_no_tray_message _].
    destruct (run (reload_and_distribute env) w2) as [[[u'|ex] w3] ev3];
      cbn [fst snd] in *;
      rewrite ?existsb_app; cbn [existsb is_tray_message];
      rewrite ?existsb_app, Hlogged, Hd; cbn; now rewrite ?orb_false_r.
  - rewrite ?existsb_app; cbn [existsb is_tray_message];
      rewrite ?existsb_app, Hlogged; cbn; now rewrite ?orb_false_r.
Qed.

End NotificationFacts.

(** The threshold of a cycle is the value of the setting
    [mag_threshold_for_notification] when it converts to a float, and 5.5
    when the setting is missing or does not convert. *)
Lemma threshold_configured `{Runtime} (s : settings) (v : json) (t : float) :
  by_name s !! "mag_threshold_for_notification" = Some v ->
  py_float v = Ok t ->
  threshold s = t.
Proof. intros Hv Ht. unfold threshold, settings_get. rewrite Hv. simpl. now rewrite Ht. Qed.

Lemma threshold_fallback `{Runtime} (s : settings) :
  match by_name s !! "mag_threshold_for_notification" with
  | Some v => is_ok (py_float v) = false
  | None => True
  end ->
  threshold s = 5.5%float.
Proof.
  unfold threshold, settings_get.
  destruct (by_name s !! "mag_threshold_for_notification") as [v|]; simpl;
    [|reflexivity].
  now destruct (py_float v).
Qed.

(** C6: when the setting [mag_threshold_for_notification] holds a value
    that converts to the float [t] and the live fetch returns a non-empty
    list, the cycle shows the tray notification if and only if the
    magnitude of the first record of that list,
    [float(top.get("mag") or 0)], converts and is at least [t].  Nothing
    else enters the decision: a cycle in any other state of the table, with
    any other records behind the same first record, decides the same. *)
Theorem notification_iff_first_live_record `{Runtime} (env : Env) (s : settings)
    (v : json) (t : float) (w : World) (top : json) (rest : list json) :
  by_name s !! "mag_threshold_for_notification" = Some v ->
  py_float v = Ok t ->
  (api_get API_LIVE (net env (requests_made w))).1 = top :: rest ->
  (existsb is_tray_message (refresh_all env s w).2 = true <->
   exists m, get_float top "mag" = Ok m /\ PrimFloat.leb t m = true) /\
  (forall env' w' rest',
     (api_get API_LIVE (net env' (requests_made w'))).1 = top :: rest' ->
     existsb is_tray_message (refresh_all env' s w').2
     = existsb is_tray_message (refresh_all env s w).2).
Proof.
  intros Hv Ht Hlive. split.
  - rewrite refresh_all_tray, Hlive, store_and_notify_tray.
    rewrite (threshold_configured s v t Hv Ht).
    destruct (get_float top "mag") as [m|ex]; split.
    + eauto.
    + now intros (m' & [= <-] & Hm).
    + discriminate.
    + now intros (m' & [=] & _).
  - intros env' w' rest' Hlive'.
    now rewrite !refresh_all_tray, Hlive, Hlive', !store_and_notify_tray.
Qed.

(** C6, example: the first record of the feed has magnitude 6.5.  With the
    threshold set to 6.5 the cycle shows the notification, with the
    threshold set to 7 it shows none, although the default 5.5 is reached
    and the table holds the same rows. *)
Lemma notification_example :
  existsb is_tray_message
    (@refresh_all example_runtime example_env (example_settings (JFloat 6.5))
       initial_world).2 = true /\
  existsb is_tray_message
    (@refresh_all example_runtime example_env (example_settings (JFloat 7))
       initial_world).2 = false.
Proof.
  split.
  - apply (proj1 (@notification_iff_first_live_record example_runtime example_env
                    (example_settings (JFloat 6.5)) (JFloat 6.5) 6.5%float
                    initial_world _ _ eq_refl eq_refl eq_refl)).
    eexists. split; reflexivity.
  - apply not_true_is_false. intros Hshown.
    apply (proj1 (@notification_iff_first_live_record example_runtime example_env
                    (example_settings (JFloat 7)) (JFloat 7) 7%float
                    initial_world _ _ eq_refl eq_refl eq_refl)) in Hshown.
    destruct Hshown as (m & Hm & Hle). injection Hm as <-. discriminate Hle.
Defined.

(** ** The guard of the map worker *)

(** C7, counterexample: a first cycle (every request fails) starts the map
    worker; a second cycle triggered while that worker is still running
    sends its request and writes two rows to the table. *)
Lemma refresh_all_runs_while_worker_runs :
  let w1 := (@refresh_all example_runtime offline_env DEFAULT_SETTINGS initial_world).1 in
  let w2 := (@refresh_all example_runtime example_env DEFAULT_SETTINGS w1).1 in
  map_thread_running w1 = true /\
  (requests_made w1 < requests_made w2)%nat /\
  db w1 = [] /\ length (db w2) = 2%nat.
Proof.
  split; [reflexivity|]. split; [vm_compute; repeat constructor|].
  split; reflexivity.
Qed.

(** C7, amended: [MapTab.refresh] called while the worker thread runs
    returns at once: no request, no write, no second worker, so at most one
    map worker is in flight.  [refresh_all] has no such guard: in every
    state it sends its request. *)
Theorem map_refresh_is_guarded `{Runtime} (env : Env) (s : settings) (w : World) :
  (map_thread_running w = true -> run MapTab_refresh w = (Ok (), w, [])) /\
  (requests_made w < requests_made (refresh_all env s w).1)%nat.
Proof.
  split.
  - intros Hrun. unfold MapTab_refresh. rewrite run_bind. cbn. now rewrite Hrun.
  - unfold refresh_all, refresh_all_try, fetch_live_earthquakes.
    rewrite run_bind, run_api_get_io.
    set (live := (api_get API_LIVE (net env (requests_made w))).1).
    assert (Ht : tame (fun _ => true)
              (store_and_notify env s live ≫= fun _ => reload_and_distribute env)).
    { apply tame_bind; [apply tame_store_and_notify|]. intros _.
      apply (tame_weaken plain); [auto | apply tame_reload_and_distribute]. }
    destruct (Ht (count_request w)) as [_ Hle]. cbn [requests_made count_request] in Hle.
    destruct (run _ (count_request w)) as [[[u|ex] w2] ev2]; cbn in *; lia.
Qed.

(** C7, example: a refresh of the map in [busy_world] changes nothing. *)
Lemma map_refresh_is_guarded_example :
  run MapTab_refresh busy_world = (Ok (), busy_world, []).
Proof.
  exact (proj1 (@map_refresh_is_guarded example_runtime example_env DEFAULT_SETTINGS
                  busy_world) eq_refl).
Defined.

(** ** A cycle whose fetches return nothing *)

Lemma keeps_db_bind {A B} (m : M A) (f : A -> M B) :
  keeps_db m ->
  (forall a, (exists w, (run m w).1.1 = Ok a) -> keeps_db (f a)) ->
  keeps_db (m ≫= f).
Proof.
  intros Hm Hf w. rewrite run_bind. specialize (Hm w).
  destruct (run m w) as [[[a|ex] w1] ev1] eqn:E; cbn in *; [|exact Hm].
  rewrite (Hf a); [exact Hm|]. exists w. now rewrite E.
Qed.

Lemma keeps_db_ret {A} (a : A) : keeps_db (mret a).
Proof. now intros w. Qed.

Lemma keeps_db_lift {A} (r : result A) : keeps_db (lift r).
Proof. now intros w. Qed.

Lemma keeps_db_emit (ev : event) : keeps_db (emit ev).
Proof. now intros w. Qed.

Lemma keeps_db_fetch_last (limit : Z) : keeps_db (fetch_last limit).
Proof. now intros w. Qed.

Lemma keeps_db_MapTab_set_data (rows : list row) : keeps_db (MapTab_set_data rows).
Proof.
  unfold MapTab_set_data, MapTab_refresh.
  apply keeps_db_bind; [apply keeps_db_emit|]. intros _ _.
  apply keeps_db_bind; [now intros w|]. intros w _.
  destruct (map_thread_running w); [apply keeps_db_ret|].
  apply keeps_db_bind; [now intros w'|]. intros _ _. apply keeps_db_emit.
Qed.

(** The records [api_get] returns do not depend on the URL it logs. *)
Lemma api_get_items_any_url (url url' : string) (o : http_outcome) :
  (api_get url o).1 = (api_get url' o).1.
Proof.
  destruct o as [|status body]; simpl; [reflexivity|].
  destruct (raise_for_status status); [reflexivity|].
  destruct body as [[| | | | |l|kvs]|]; reflexivity.
Qed.

Lemma db_fetch_last_200 (st : list row) :
  db_fetch_last 200 st = Ok (take 200 (order_by_created_at_desc st)).
Proof. reflexivity. Qed.

Section EmptyFetch.
Context `{Runtime}.
Variable env : Env.
Hypothesis Hempty : forall n, (api_get API_LIVE (net env n)).1 = [].

Lemma keeps_db_fetch_and_upsert :
  keeps_db (eqs ← fetch_live_earthquakes env; _ ← upsert env eqs; fetch_last 200).
Proof.
  apply keeps_db_bind.
  - intros w. unfold fetch_live_earthquakes. now rewrite run_api_get_io.
  - intros eqs [w Hw]. unfold fetch_live_earthquakes in Hw.
    rewrite run_api_get_io in Hw. cbn in Hw. rewrite Hempty in Hw. injection Hw as <-.
    apply keeps_db_bind; [|intros; apply keeps_db_fetch_last].
    intros w'. now rewrite run_upsert.
Qed.

Lemma keeps_db_NearTab_refresh_data : keeps_db (NearTab_refresh_data env).
Proof.
  unfold NearTab_refresh_data.
  apply keeps_db_bind; [apply keeps_db_fetch_last|]. intros rows _.
  apply keeps_db_bind.
  - destruct rows; [apply keeps_db_fetch_and_upsert | apply keeps_db_ret].
  - intros rows' _. apply keeps_db_bind; [apply keeps_db_lift|].
    intros; apply keeps_db_emit.
Qed.

Lemma keeps_db_reload_and_distribute : keeps_db (reload_and_distribute env).
Proof.
  unfold reload_and_distribute.
  apply keeps_db_bind; [apply keeps_db_fetch_last|]. intros rows _.
  apply keeps_db_bind.
  { unfold HomeTab_update_overview. apply keeps_db_bind; [apply keeps_db_lift|].
    intros; apply keeps_db_emit. }
  intros _ _. apply keeps_db_bind; [apply keeps_db_MapTab_set_data|].
  intros _ _. apply keeps_db_bind; [apply keeps_db_NearTab_refresh_data|].
  intros _ _. apply keeps_db_bind; [apply keeps_db_emit|].
  intros _ _. apply keeps_db_bind; [apply keeps_db_lift|].
  intros; apply keeps_db_emit.
Qed.

Lemma keeps_db_MapGeneratorWorker_run (has_folium : bool) (mode : map_mode) :
  keeps_db (MapGeneratorWorker_run env has_folium mode).
Proof.
  unfold MapGeneratorWorker_run.
  apply keeps_db_bind; [|intros _ _; now intros w].
  destruct has_folium; [|apply keeps_db_ret].
  apply keeps_db_bind.
  - intros w. destruct mode; unfold fetch_live_earthquakes, fetch_archive_earthquakes;
      now rewrite run_api_get_io.
  - intros eqs [w Hw].
    assert (eqs = []) as ->.
    { destruct mode; unfold fetch_live_earthquakes, fetch_archive_earthquakes in Hw;
        rewrite run_api_get_io in Hw; cbn in Hw; injection Hw as <-;
        [|rewrite (api_get_items_any_url API_ARCHIVE API_LIVE)]; apply Hempty. }
    intros w'. now rewrite run_upsert.
Qed.

Lemma refresh_all_empty_fetch (s : settings) (w : World) :
  run (refresh_all_try env s) w =
  ((run (reload_and_distribute env) (count_request w)).1,
   Request API_LIVE [] :: (api_get API_LIVE (net env (requests_made w))).2
   ++ (run (reload_and_distribute env) (count_request w)).2).
Proof.
  unfold refresh_all_try, fetch_live_earthquakes.
  rewrite run_bind, run_api_get_io, Hempty, run_bind.
  cbn [store_and_notify mret M_ret run fst snd app].
  reflexivity.
Qed.

End EmptyFetch.

Lemma is_ok_Ok {A} (r : result A) : is_ok r = true -> exists a, r = Ok a.
Proof. destruct r; [eauto | discriminate]. Qed.

Lemma run_MapTab_set_data (rows : list row) (w : World) :
  exists w' evs, run (MapTab_set_data rows) w = (Ok (), w', MapSetData rows :: evs)
                 /\ db w' = db w.
Proof.
  unfold MapTab_set_data, MapTab_refresh. rewrite run_bind. cbn [emit run fst snd].
  rewrite run_bind. cbn [read_world run fst snd].
  destruct (map_thread_running w).
  - exists w, []. auto.
  - rewrite run_bind. cbn. eauto.
Qed.

Section Distribution.
Context `{Runtime}.
Variable env : Env.
Hypothesis Hempty : forall n, (api_get API_LIVE (net env n)).1 = [].

Lemma run_NearTab_refresh_data (w : World) (us : list unit) :
  mapM near_row (take 200 (order_by_created_at_desc (db w))) = Ok us ->
  exists w' evs,
    run (NearTab_refresh_data env) w = (Ok (), w', evs) /\
    In (NearTable (take 200 (order_by_created_at_desc (db w)))) evs.
Proof.
  intros Hus. unfold NearTab_refresh_data.
  rewrite run_bind. cbn [fetch_last run fst snd]. rewrite db_fetch_last_200.
  destruct (take 200 (order_by_created_at_desc (db w))) as [|r rows] eqn:Erows.
  - rewrite run_bind. unfold fetch_live_earthquakes.
    rewrite run_bind, run_api_get_io, Hempty. cbn [fst snd].
    rewrite run_bind, run_upsert. cbn [fst snd db_upsert_earthquakes upsert_from map].
    cbn [fetch_last run fst snd set_db db count_request]. rewrite db_fetch_last_200, Erows.
    cbn [fst snd app]. rewrite run_bind. cbn [lift run]. rewrite Hus.
    cbn [emit run fst snd]. eexists _, _. split; [reflexivity|].
    right. apply in_or_app. right. apply in_or_app. right. now left.
  - rewrite run_bind. cbn [mret M_ret run fst snd app].
    rewrite run_bind. cbn [lift run]. rewrite Hus.
    cbn [emit run fst snd]. eexists _, _. split; [reflexivity|]. now left.
Qed.

Lemma run_reload_and_distribute (w : World) :
  renders (take 200 (order_by_created_at_desc (db w))) = true ->
  exists w' evs,
    run (reload_and_distribute env) w = (Ok (), w', evs) /\
    In (HomeOverview (take 200 (order_by_created_at_desc (db w)))) evs /\
    In (MapSetData (take 200 (order_by_created_at_desc (db w)))) evs /\
    In (NearTable (take 200 (order_by_created_at_desc (db w)))) evs /\
    In (AnalysisData (take 200 (order_by_created_at_desc (db w)))) evs /\
    In (Refreshed (length (take 200 (order_by_created_at_desc (db w))))) evs.
Proof.
  unfold renders. intros [[ms Hms]%is_ok_Ok [us Hus]%is_ok_Ok]%andb_true_iff.
  unfold reload_and_distribute.
  rewrite run_bind. cbn [fetch_last run fst snd]. rewrite db_fetch_last_200.
  set (rows := take 200 (order_by_created_at_desc (db w))) in *.
  rewrite run_bind. unfold HomeTab_update_overview.
  rewrite run_bind. cbn [lift run]. rewrite Hms. cbn [emit run fst snd app].
  rewrite run_bind.
  destruct (run_MapTab_set_data rows w) as (w1 & ev1 & -> & Hdb). cbn [fst snd].
  rewrite run_bind.
  destruct (run_NearTab_refresh_data w1 us) as (w2 & ev2 & -> & Hnear).
  { rewrite Hdb. exact Hus. }
  rewrite Hdb in Hnear. fold rows in Hnear. cbn [fst snd].
  rewrite run_bind. unfold AnalysisTab_set_data. cbn [emit run fst snd].
  rewrite run_bind. cbn [lift emit run fst snd app].
  eexists _, _. split; [reflexivity|].
  repeat split; simpl; rewrite ?in_app_iff; simpl; auto 10.
Qed.

End Distribution.

(** C5, counterexample: the table holds a record whose airports are not a
    list of objects (the upsert stored it as it came); every request then
    fails.  The table view raises on that row, the cycle is reported as
    failed and the charts are never given the rows. *)
Lemma stored_airports_can_fail_the_cycle :
  let quake := JDict [("earthquake_id", JStr "a");
                      ("location_properties", JDict [("airports", JList [JInt 1])])] in
  let st := @store_after example_runtime [(example_clock, [quake])] in
  let w := {| db := st; map_thread_running := false; requests_made := 1 |} in
  let evs := (@refresh_all example_runtime offline_env DEFAULT_SETTINGS w).2 in
  length st = 1%nat /\
  existsb is_refresh_error evs = true /\
  existsb (fun ev => match ev with AnalysisData _ => true | _ => false end) evs = false.
Proof. vm_compute. repeat split. Qed.

(** C5, amended: a cycle all of whose fetches return the empty list
    leaves the table exactly as it was, and so does the map worker the cycle
    may start.  When the overview and the table view can render the latest
    200 rows (every stored magnitude and depth converts, every stored
    airports value is a list of objects with string names), the cycle is not
    reported as failed and the overview, the map, the table and the charts
    all receive those rows, read back from the table. *)
Theorem empty_fetch_keeps_store_and_distributes `{Runtime} (env : Env)
    (s : settings) (w : World) :
  (forall n, (api_get API_LIVE (net env n)).1 = []) ->
  let rows := take 200 (order_by_created_at_desc (db w)) in
  let evs := (refresh_all env s w).2 in
  db (refresh_all env s w).1 = db w /\
  (forall has_folium mode w',
     db (run (MapGeneratorWorker_run env has_folium mode) w').1.2 = db w') /\
  db_fetch_last 200 (db w) = Ok rows /\
  (renders rows = true ->
     existsb is_refresh_error evs = false /\
     In (HomeOverview rows) evs /\ In (MapSetData rows) evs /\
     In (NearTable rows) evs /\ In (AnalysisData rows) evs /\
     In (Refreshed (length rows)) evs).
Proof.
  intros Hempty rows evs. subst evs. unfold refresh_all.
  rewrite (refresh_all_empty_fetch env Hempty).
  split; [|split; [|split; [apply db_fetch_last_200|]]].
  2:{ intros has_folium mode w'.
      apply (keeps_db_MapGeneratorWorker_run env Hempty). }
  - pose proof (keeps_db_reload_and_distribute env Hempty (count_request w)) as Hdb.
    destruct (run (reload_and_distribute env) (count_request w)) as [[[u|ex] w'] ev'];
      exact Hdb.
  - intros Hr.
    destruct (run_reload_and_distribute env Hempty (count_request w) Hr)
      as (w' & ev' & Hrun & Hhome & Hmap & Hnear & Hana & Hlog).
    pose proof (tame_reload_and_distribute env (count_request w)) as [Hplain _].
    rewrite Hrun in *. cbn [fst snd] in *.
    split.
    + cbn [existsb is_refresh_error orb]. rewrite existsb_app.
      assert (Hno : forall l, forallb plain l = true -> existsb is_refresh_error l = false).
      { induction l as [|ev l IH]; simpl; [reflexivity|].
        intros [Hev Hl]%andb_true_iff. rewrite (IH Hl). now destruct ev. }
      now rewrite (Hno _ (api_get_logs_plain _ _)), (Hno _ Hplain).
    + repeat split; right; apply in_or_app; right; assumption.
Qed.

(** C5, example: offline, with the two records of the end-to-end example
    in the table. *)
Lemma empty_fetch_example :
  let st := @store_after example_runtime
              [(example_clock, match example_feed with JList l => l | _ => [] end)] in
  let w := {| db := st; map_thread_running := false; requests_made := 1 |} in
  db (@refresh_all example_runtime offline_env DEFAULT_SETTINGS w).1 = st.
Proof.
  intros st w.
  exact (proj1 (@empty_fetch_keeps_store_and_distributes example_runtime offline_env
                  DEFAULT_SETTINGS w (fun _ => eq_refl))).
Defined.

(** ** The end-to-end example of the specification *)

(** A live cycle on the empty table with the two-record feed and the
    default threshold stores both records, [db_fetch_last 10] then returns
    "b" before "a", and the tray message for the first record of the feed
    is shown. *)
Lemma end_to_end_example :
  let w' := (@refresh_all example_runtime example_env DEFAULT_SETTINGS initial_world).1 in
  let evs := (@refresh_all example_runtime example_env DEFAULT_SETTINGS initial_world).2 in
  (db_fetch_last 10 (db w') ≫= fun rows => Ok (map earthquake_id rows))
  = Ok [SText "b"; SText "a"] /\
  List.filter is_tray_message evs = [TrayMessage 6.5 (JStr "")].
Proof. split; reflexivity. Qed.

(** * Further properties *)

(** ** The order of floats *)

Lemma SFcompare_key (f1 f2 : spec_float) :
  match SFcompare f1 f2, sf_key f1, sf_key f2 with
  | None, None, _ | None, _, None => True
  | Some Lt, Some k1, Some k2 => key_lt k1 k2
  | Some Eq, Some k1, Some k2 => k1 = k2
  | Some Gt, Some k1, Some k2 => key_lt k2 k1
  | _, _, _ => False
  end.
Proof.
  destruct f1 as [s1|s1| |s1 m1 e1], f2 as [s2|s2| |s2 m2 e2]; simpl;
    try destruct s1; try destruct s2; simpl; auto; try lia.
  - destruct (Z.compare_spec e1 e2); simpl; try lia.
    rewrite Pos.compare_cont_spec. simpl.
    destruct (Pos.compare_spec m1 m2); simpl; subst; try lia. reflexivity.
  - destruct (Z.compare_spec e1 e2); simpl; try lia.
    rewrite Pos.compare_cont_spec. simpl.
    destruct (Pos.compare_spec m1 m2); simpl; subst; try lia. reflexivity.
Qed.

Lemma key_lt_le (k1 k2 : Z * Z * Z) : key_lt k1 k2 -> key_le k1 k2.
Proof. destruct k1 as [[a1 b1] c1], k2 as [[a2 b2] c2]. simpl. lia. Qed.

Lemma key_le_refl (k : Z * Z * Z) : key_le k k.
Proof. destruct k as [[a b] c]. simpl. lia. Qed.

Lemma key_le_trans (k1 k2 k3 : Z * Z * Z) : key_le k1 k2 -> key_le k2 k3 -> key_le k1 k3.
Proof.
  destruct k1 as [[a1 b1] c1], k2 as [[a2 b2] c2], k3 as [[a3 b3] c3]. simpl. lia.
Qed.

Lemma key_lt_irrefl_le (k1 k2 : Z * Z * Z) : key_lt k1 k2 -> key_le k2 k1 -> False.
Proof. destruct k1 as [[a1 b1] c1], k2 as [[a2 b2] c2]. simpl. lia. Qed.

(** [x <= y] on floats is the order of their keys. *)
Lemma float_leb_key (x y : float) :
  PrimFloat.leb x y = true <->
  exists k1 k2, sf_key (Prim2SF x) = Some k1 /\ sf_key (Prim2SF y) = Some k2 /\ key_le k1 k2.
Proof.
  rewrite leb_spec. unfold SFleb.
  pose proof (SFcompare_key (Prim2SF x) (Prim2SF y)) as Hc.
  destruct (SFcompare (Prim2SF x) (Prim2SF y)) as [[]|],
           (sf_key (Prim2SF x)) as [k1|], (sf_key (Prim2SF y)) as [k2|];
    try contradiction;
    (split; [intros Ht | intros (k1' & k2' & Hk1 & Hk2 & Hle)]);
    try discriminate; try reflexivity.
  - subst. exists k2, k2. split; [reflexivity | split; [reflexivity | apply key_le_refl]].
  - exists k1, k2. split; [reflexivity | split; [reflexivity | now apply key_lt_le]].
  - injection Hk1 as <-. injection Hk2 as <-. destruct (key_lt_irrefl_le _ _ Hc Hle).
Qed.

Lemma float_ltb_key (x y : float) :
  PrimFloat.ltb x y = true ->
  exists k1 k2, sf_key (Prim2SF x) = Some k1 /\ sf_key (Prim2SF y) = Some k2 /\ key_lt k1 k2.
Proof.
  rewrite ltb_spec. unfold SFltb.
  pose proof (SFcompare_key (Prim2SF x) (Prim2SF y)) as Hc.
  destruct (SFcompare (Prim2SF x) (Prim2SF y)) as [[]|]; try discriminate.
  destruct (sf_key (Prim2SF x)) as [k1|], (sf_key (Prim2SF y)) as [k2|];
    try contradiction. eauto.
Qed.

Lemma float_leb_trans (x y z : float) :
  PrimFloat.leb x y = true -> PrimFloat.leb y z = true -> PrimFloat.leb x z = true.
Proof.
  rewrite !float_leb_key.
  intros (k1 & k2 & H1 & H2 & H12) (k2' & k3 & H2' & H3 & H23).
  rewrite H2 in H2'. injection H2' as <-. exists k1, k3.
  split; [exact H1 | split; [exact H3 | exact (key_le_trans _ _ _ H12 H23)]].
Qed.

Lemma float_ltb_leb (x y : float) :
  PrimFloat.ltb x y = true -> PrimFloat.leb x y = true.
Proof.
  intros (k1 & k2 & H1 & H2 & Hlt)%float_ltb_key.
  apply float_leb_key. exists k1, k2.
  split; [exact H1 | split; [exact H2 | now apply key_lt_le]].
Qed.

(** ** Colours and marker sizes *)

(** The colour of a marker never falls to a milder one when the magnitude
    grows. *)
Theorem mag_to_color_monotone (m1 m2 : float) :
  PrimFloat.leb m1 m2 = true ->
  (severity (mag_to_color m1) <= severity (mag_to_color m2))%nat.
Proof.
  intros Hle.
  assert (Hup : forall c, PrimFloat.leb c m1 = true -> PrimFloat.leb c m2 = true)
    by (intros c Hc; exact (float_leb_trans c m1 m2 Hc Hle)).
  unfold mag_to_color.
  destruct (PrimFloat.leb 7 m1) eqn:E7; [rewrite (Hup _ E7); reflexivity|].
  destruct (PrimFloat.leb 6 m1) eqn:E6;
    [rewrite (Hup _ E6); destruct (PrimFloat.leb 7 m2); vm_compute; lia|].
  destruct (PrimFloat.leb 5 m1) eqn:E5;
    [rewrite (Hup _ E5); destruct (PrimFloat.leb 7 m2), (PrimFloat.leb 6 m2);
     vm_compute; lia|].
  destruct (PrimFloat.leb 4 m1) eqn:E4;
    [rewrite (Hup _ E4);
     destruct (PrimFloat.leb 7 m2), (PrimFloat.leb 6 m2), (PrimFloat.leb 5 m2);
     vm_compute; lia|].
  destruct (PrimFloat.leb 3 m1) eqn:E3;
    [rewrite (Hup _ E3);
     destruct (PrimFloat.leb 7 m2), (PrimFloat.leb 6 m2), (PrimFloat.leb 5 m2),
       (PrimFloat.leb 4 m2); vm_compute; lia|].
  change (severity "blue") with 0%nat. lia.
Qed.

Lemma mag_to_color_monotone_example :
  (severity (mag_to_color 4.5) <= severity (mag_to_color 6.5))%nat.
Proof. apply mag_to_color_monotone. reflexivity. Defined.

(** A marker's radius is never below 4, whatever the magnitude (also for a
    NaN). *)
Lemma max_int_float_lower_bound (n : Z) (x : float) :
  PrimFloat.leb (float_of_Z n) (float_of_Z n) = true ->
  PrimFloat.leb (float_of_Z n) (max_int_float n x) = true.
Proof.
  intros Hn. unfold max_int_float.
  destruct (PrimFloat.ltb (float_of_Z n) x) eqn:E; [now apply float_ltb_leb | exact Hn].
Qed.

(** ** The map the worker draws *)

Lemma mapM_Ok {A B} (f : A -> result B) (l : list A) (ys : list B) :
  mapM f l = Ok ys -> Forall2 (fun x y => f x = Ok y) l ys.
Proof.
  revert ys. induction l as [|x l IH]; intros ys Hm; simpl in Hm.
  - injection Hm as <-. constructor.
  - apply bind_Ok in Hm as (y & Hy & Hm). apply bind_Ok in Hm as (k & Hk & Hm).
    injection Hm as <-. constructor; auto.
Qed.

Lemma mapM_Raise {A B} (f : A -> result B) (l : list A) (x : A) :
  In x l -> is_ok (f x) = false -> is_ok (mapM f l) = false.
Proof.
  induction l as [|a l IH]; simpl; [contradiction|].
  intros [->|Hin] Hx.
  - destruct (f x); [discriminate | reflexivity].
  - destruct (f a); [|reflexivity]. simpl.
    specialize (IH Hin Hx). destruct (mapM f l); [discriminate | reflexivity].
Qed.

Section MapFacts.
Context `{Runtime}.

Lemma filter_min_mag_Ok (min_mag : float) (eqs kept : list json) :
  filter_min_mag min_mag eqs = Ok kept ->
  sublist kept eqs /\
  Forall (fun e => is_ok (get_float e "mag") = true) eqs /\
  Forall (fun e => exists m, get_float e "mag" = Ok m /\ PrimFloat.leb min_mag m = true) kept /\
  (forall e m, In e eqs -> get_float e "mag" = Ok m -> PrimFloat.leb min_mag m = true ->
     In e kept).
Proof.
  revert kept. induction eqs as [|e rest IH]; intros kept Hf; simpl in Hf.
  - injection Hf as <-.
    split; [constructor | split; [constructor | split; [constructor | intros e m []]]].
  - apply bind_Ok in Hf as (m & Hm & Hf). apply bind_Ok in Hf as (kept' & Hk & Hf).
    injection Hf as <-. destruct (IH kept' Hk) as (Hsub & Hall & Hkept & Hin).
    split; [|split; [|split]].
    + destruct (PrimFloat.leb min_mag m); now constructor.
    + constructor; [now rewrite Hm | exact Hall].
    + destruct (PrimFloat.leb min_mag m) eqn:E; [constructor; eauto | exact Hkept].
    + intros e' m' [<-|Hin'] Hm' Hle.
      * rewrite Hm in Hm'. injection Hm' as <-. rewrite Hle. now left.
      * specialize (Hin e' m' Hin' Hm' Hle).
        destruct (PrimFloat.leb min_mag m); [now right | exact Hin].
Qed.

Lemma circle_marker_Ok (e : json) (mk : marker) :
  circle_marker e = Ok mk ->
  get_float e "mag" = Ok (m_mag mk) /\
  m_radius mk = max_int_float 4 (m_mag mk * 1.5)%float /\
  m_color mk = mag_to_color (m_mag mk) /\
  is_ok (lon_lat e (JList [JInt 0; JInt 0])) = true.
Proof.
  unfold circle_marker. intros Hc. inv_binds. subst mk. simpl.
  rewrite E. auto.
Qed.


(** Every marker on the map stands for a fetched record whose magnitude
    reaches the minimum, in the order of the feed; its radius is at least 4
    and its colour is the colour of its magnitude. *)
Theorem drawn_markers_pass_the_filter (min_mag : float) (cluster_mode : string)
    (eqs : list json) (art : map_artifact) (clustered : bool) (ms : list marker) :
  MapGeneratorWorker_draw min_mag cluster_mode eqs = Ok art ->
  layer art = CircleMarkers clustered ms ->
  exists kept,
    sublist kept eqs /\
    Forall2 (fun e mk => get_float e "mag" = Ok (m_mag mk)) kept ms /\
    Forall (fun mk => PrimFloat.leb min_mag (m_mag mk) = true /\
                      PrimFloat.leb 4 (m_radius mk) = true /\
                      m_color mk = mag_to_color (m_mag mk)) ms.
Proof.
  unfold MapGeneratorWorker_draw. intros Hd Hl.
  apply bind_Ok in Hd as (kept & Hk & Hd). apply bind_Ok in Hd as (centre & _ & Hd).
  apply bind_Ok in Hd as (lay & Hlay & Hd). injection Hd as <-. simpl in Hl.
  assert (Hms : mapM circle_marker kept = Ok ms).
  { destruct (String.eqb cluster_mode "MarkerCluster");
      [|destruct (String.eqb cluster_mode "HeatMap")];
      apply bind_Ok in Hlay as (ms' & Hms' & Hlay); congruence. }
  apply filter_min_mag_Ok in Hk as (Hsub & _ & Hkept & _).
  apply mapM_Ok in Hms. exists kept. split; [exact Hsub|].
  clear Hsub Hlay Hl. induction Hms as [|e mk kept' ms' Hmk Hrest IH].
  - split; constructor.
  - apply Forall_cons in Hkept as [(m & Hm & Hle) Hkept].
    destruct (IH Hkept) as [IH1 IH2].
    apply circle_marker_Ok in Hmk as (Hmag & Hrad & Hcol & _).
    split; constructor; auto.
    rewrite Hm in Hmag. injection Hmag as ->.
    split; [exact Hle | split; [|exact Hcol]].
    rewrite Hrad. now apply (max_int_float_lower_bound 4).
Qed.


End MapFacts.

(** With minimum 4 only the first record of the example feed gets a marker. *)
Lemma drawn_markers_example :
  exists kept,
    sublist kept example_records /\
    Forall2 (fun e mk => @get_float example_runtime e "mag" = Ok (m_mag mk)) kept
      [{| m_lat := 41; m_lon := 29; m_radius := 9.75; m_color := "red"; m_mag := 6.5;
          m_title := JStr ""; m_date := JStr ""; m_depth := 0 |}] /\
    Forall (fun mk => PrimFloat.leb 4 (m_mag mk) = true /\
                      PrimFloat.leb 4 (m_radius mk) = true /\
                      m_color mk = mag_to_color (m_mag mk))
      [{| m_lat := 41; m_lon := 29; m_radius := 9.75; m_color := "red"; m_mag := 6.5;
          m_title := JStr ""; m_date := JStr ""; m_depth := 0 |}].
Proof.
  exact (@drawn_markers_pass_the_filter example_runtime 4 "Yok" example_records
           _ false _ eq_refl eq_refl).
Defined.


(** A record with a single coordinate is stored with latitude 0.0, but a
    batch that holds it gives no map. *)
Lemma short_coordinates_store_but_no_map :
  let e := JDict [("earthquake_id", JStr "a"); ("mag", JFloat 5);
                  ("geojson", JDict [("coordinates", JList [JFloat 29])])] in
  (@normalize example_runtime 5 e ≫= fun r => Ok (lon r, lat r)) = Ok (SReal 29, SReal 0) /\
  @MapGeneratorWorker_draw example_runtime 0 "Yok" [e] = Raise IndexError.
Proof. split; reflexivity. Qed.

(** ** What an upsert keeps *)

Lemma upsert_row_length (r : row) (st : list row) :
  (length st <= length (upsert_row r st) <= S (length st))%nat.
Proof.
  induction st as [|old rest IH]; simpl; [lia|].
  destruct (same_key (earthquake_id old) (earthquake_id r)); simpl; lia.
Qed.

Lemma upsert_row_keys (r : row) (st : list row) :
  map earthquake_id st `prefix_of` map earthquake_id (upsert_row r st).
Proof.
  induction st as [|old rest IH]; simpl; [apply prefix_nil|].
  destruct (same_key (earthquake_id old) (earthquake_id r)); simpl.
  - reflexivity.
  - now apply prefix_cons.
Qed.

Section UpsertFacts.
Context `{Runtime}.

(** The row an upsert writes is in the table afterwards: appended, or in
    the place of the row that had its key. *)
Lemma do_update_same_key (old r : row) :
  earthquake_id old = earthquake_id r -> do_update old r = r.
Proof. destruct r. unfold do_update. simpl. now intros ->. Qed.

Lemma upsert_row_In (r : row) (st : list row) : In r (upsert_row r st).
Proof.
  induction st as [|old rest IH]; simpl; [now left|].
  destruct (same_key (earthquake_id old) (earthquake_id r)) eqn:E; simpl.
  - left. apply do_update_same_key.
    apply same_key_true in E as (k & -> & ->). reflexivity.
  - now right.
Qed.

(** A row of the table stays, unless the row written has its key. *)
Lemma upsert_row_keeps (x r : row) (st : list row) :
  In x st -> In x (upsert_row r st) \/ earthquake_id r = earthquake_id x.
Proof.
  induction st as [|old rest IH]; simpl; [tauto|].
  destruct (same_key (earthquake_id old) (earthquake_id r)) eqn:E; simpl.
  - intros [<-|Hin]; [|tauto].
    right. apply same_key_true in E as (k & -> & ->). reflexivity.
  - intros [<-|Hin]; [tauto|]. destruct (IH Hin); tauto.
Qed.

(** Through the rest of a batch a row stays, or the row of a later record
    with its key is in the table. *)
Lemma upsert_from_keeps (clk : nat -> Z) (items : list json) :
  forall (i0 : nat) (st : list row) (x : row),
    In x st ->
    In x (upsert_from clk i0 items st).1 \/
    exists j e' r', nth_error items j = Some e' /\
                    normalize (clk (i0 + j)%nat) e' = Ok r' /\
                    earthquake_id r' = earthquake_id x /\
                    In r' (upsert_from clk i0 items st).1.
Proof.
  induction items as [|e rest IH]; intros i0 st x Hin; [now left|].
  rewrite upsert_from_cons. destruct (normalize (clk i0) e) as [r|ex] eqn:E.
  - destruct (upsert_row_keeps x r st Hin) as [Hin'|Hkey].
    + destruct (IH (S i0) _ x Hin') as [Hx|(j & e' & r' & Hj & Hn & Hk & Hr)];
        [now left|].
      right. exists (S j), e', r'. rewrite Nat.add_succ_r. auto.
    + destruct (IH (S i0) _ r (upsert_row_In r st))
        as [Hr|(j & e' & r' & Hj & Hn & Hk & Hr)]; right.
      * exists 0%nat, e, r. rewrite Nat.add_0_r. auto.
      * exists (S j), e', r'. rewrite Nat.add_succ_r.
        repeat split; auto; congruence.
  - cbn [fst]. destruct (IH (S i0) st x Hin) as [Hx|(j & e' & r' & Hj & Hn & Hk & Hr)];
      [now left|].
    right. exists (S j), e', r'. rewrite Nat.add_succ_r. auto.
Qed.

Lemma upsert_from_accounts (clk : nat -> Z) (items : list json) :
  forall (i0 : nat) (st : list row) (i : nat) (e : json),
    nth_error items i = Some e ->
    match normalize (clk (i0 + i)%nat) e with
    | Ok r =>
        exists j e' r', (i <= j)%nat /\ nth_error items j = Some e' /\
                        normalize (clk (i0 + j)%nat) e' = Ok r' /\
                        earthquake_id r' = earthquake_id r /\
                        In r' (upsert_from clk i0 items st).1
    | Raise ex => In ex (upsert_from clk i0 items st).2
    end.
Proof.
  induction items as [|e0 rest IH]; intros i0 st i e Hi; [now destruct i|].
  destruct i as [|i]; simpl in Hi.
  - injection Hi as ->. rewrite Nat.add_0_r, upsert_from_cons.
    destruct (normalize (clk i0) e) as [r|ex] eqn:E; [|now left].
    destruct (upsert_from_keeps clk rest (S i0) _ r (upsert_row_In r st))
      as [Hr|(j & e' & r' & Hj & Hn & Hk & Hr)].
    + exists 0%nat, e, r. rewrite Nat.add_0_r. repeat split; auto.
    + exists (S j), e', r'. rewrite Nat.add_succ_r. repeat split; auto. lia.
  - rewrite Nat.add_succ_r, upsert_from_cons.
    destruct (normalize (clk i0) e0) as [r0|ex0] eqn:E0; cbn [fst snd].
    + specialize (IH (S i0) (upsert_row r0 st) i e Hi). cbn [Nat.add] in IH.
      destruct (normalize (clk (S (i0 + i))) e) as [r|ex]; [|exact IH].
      destruct IH as (j & e' & r' & Hle & Hj & Hn & Hk & Hr).
      exists (S j), e', r'. rewrite Nat.add_succ_r. repeat split; auto. lia.
    + specialize (IH (S i0) st i e Hi). cbn [Nat.add] in IH.
      destruct (normalize (clk (S (i0 + i))) e) as [r|ex]; [|now right].
      destruct IH as (j & e' & r' & Hle & Hj & Hn & Hk & Hr).
      exists (S j), e', r'. rewrite Nat.add_succ_r. repeat split; auto. lia.
Qed.

Lemma upsert_from_lengths (clk : nat -> Z) (items : list json) :
  forall (i0 : nat) (st : list row),
    (length st <= length (upsert_from clk i0 items st).1)%nat /\
    (length (upsert_from clk i0 items st).1 + length (upsert_from clk i0 items st).2
     <= length st + length items)%nat.
Proof.
  induction items as [|e rest IH]; intros i0 st; [simpl; lia|].
  rewrite upsert_from_cons. destruct (normalize (clk i0) e) as [r|ex]; simpl.
  - specialize (IH (S i0) (upsert_row r st)).
    pose proof (upsert_row_length r st). lia.
  - specialize (IH (S i0) st). lia.
Qed.

(** Every record of a batch is either written to the table or logged.  A
    record whose conversion raises has its exception in the log.  A record
    that converts is written: afterwards the table holds its row, or the
    row of a later record of the batch that has the same key and was
    written over it.  The table never shrinks, and it grows by at most one
    row for each record that was not logged. *)
Theorem upsert_accounts_for_every_record (clk : nat -> Z) (items : list json)
    (st : list row) (i : nat) (e : json) :
  nth_error items i = Some e ->
  let st' := (db_upsert_earthquakes clk items st).1 in
  let logged := (db_upsert_earthquakes clk items st).2 in
  match normalize (clk i) e with
  | Ok r =>
      exists j e' r', (i <= j)%nat /\ nth_error items j = Some e' /\
                      normalize (clk j) e' = Ok r' /\
                      earthquake_id r' = earthquake_id r /\ In r' st'
  | Raise ex => In ex logged
  end /\
  (length st <= length st')%nat /\
  (length st' + length logged <= length st + length items)%nat.
Proof.
  intros Hi. cbv zeta. unfold db_upsert_earthquakes. split.
  - exact (upsert_from_accounts clk items 0 st i e Hi).
  - apply upsert_from_lengths.
Qed.

(** An upsert never deletes, moves or re-keys a row: the keys of the table,
    in rowid order, are a prefix of the keys afterwards. *)
Theorem upsert_keeps_keys_in_place (clk : nat -> Z) (items : list json)
    (st : list row) :
  map earthquake_id st `prefix_of`
  map earthquake_id (db_upsert_earthquakes clk items st).1.
Proof.
  apply (upsert_from_invariant
           (fun st' => map earthquake_id st `prefix_of` map earthquake_id st')).
  - intros now e r st' _ Hpre. etransitivity; [exact Hpre | apply upsert_row_keys].
  - reflexivity.
Qed.

Lemma normalize_created_at (now : Z) (e : json) (r : row) :
  normalize now e = Ok r -> int64 (created_at r) = true.
Proof.
  unfold normalize, bind_row. intros Hn. inv_binds. subst r. simpl.
  match goal with Hb : bind_int _ = Ok _ |- _ => unfold bind_int in Hb end.
  match goal with Hb : (if int64 ?z then _ else _) = Ok _ |- _ =>
    destruct (int64 z) eqn:Ez; [injection Hb as <-; exact Ez | discriminate] end.
Qed.

(** A REAL column filled from a Python float always reads back as a float
    or as NULL, and either converts. *)
Lemma stored_float_converts (f : float) :
  is_ok (py_float (py_or (py_of_sql
           (real_affinity (if PrimFloat.is_nan f then SNull else SReal f))) (JInt 0)))
  = true.
Proof.
  destruct (PrimFloat.is_nan f); [reflexivity|].
  unfold real_affinity, integer_affinity, real_to_integer.
  destruct (int_of_float f) as [z|ex]; simpl.
  - destruct (_ && _ && _); simpl; unfold py_or; simpl;
      match goal with |- context [PrimFloat.is_zero ?g] => destruct (PrimFloat.is_zero g) end;
      reflexivity.
  - unfold py_or; simpl. destruct (PrimFloat.is_zero f); reflexivity.
Qed.

Lemma normalize_row_converts (now : Z) (e : json) (r : row) :
  normalize now e = Ok r -> row_converts r = true.
Proof.
  intros Hn. unfold row_converts, row_mag, row_depth.
  rewrite (normalize_created_at now e r Hn).
  apply normalize_numeric_fields in Hn
    as (m & dp & geo & x & y & _ & _ & _ & _ & _ & -> & -> & _).
  now rewrite !stored_float_converts.
Qed.

(** In every table built by upserts, each row's [created_at] fits 64 bits
    and its magnitude and depth convert to floats: the overview and the
    statistics never raise on stored rows. *)
Theorem stored_rows_convert (history : list ((nat -> Z) * list json)) :
  forallb row_converts (store_after history) = true.
Proof.
  apply (store_after_invariant (fun st => forallb row_converts st = true)).
  - reflexivity.
  - intros now e r st Hn Hst.
    pose proof (normalize_row_converts now e r Hn) as Hr.
    apply forallb_upsert_row; [|exact Hr | exact Hst].
    intros old _. exact Hr.
Qed.

End UpsertFacts.

(** A batch of a number and two records with the key [a]: the number is
    logged, the first record is written and then overwritten by the
    second, and the table has one row. *)
Lemma upsert_accounts_example :
  let items := [JInt 3;
                JDict [("earthquake_id", JStr "a"); ("mag", JFloat 1)];
                JDict [("earthquake_id", JStr "a"); ("mag", JFloat 2)]] in
  let out := @db_upsert_earthquakes example_runtime example_clock items [] in
  In AttributeError out.2 /\
  (exists j e' r', (1 <= j)%nat /\ nth_error items j = Some e' /\
                   @normalize example_runtime (example_clock j) e' = Ok r' /\
                   earthquake_id r' = SText "a" /\ In r' out.1) /\
  map mag out.1 = [SReal 2].
Proof.
  intros items out. split; [|split].
  - exact (proj1 (@upsert_accounts_for_every_record example_runtime example_clock
                    items [] 0 (JInt 3) eq_refl)).
  - exact (proj1 (@upsert_accounts_for_every_record example_runtime example_clock
                    items [] 1 _ eq_refl)).
  - reflexivity.
Defined.

(** ** Rows the table view can show *)

Lemma mapM_is_ok {A B} (f : A -> result B) (l : list A) :
  Forall (fun x => is_ok (f x) = true) l -> is_ok (mapM f l) = true.
Proof.
  induction 1 as [|x l Hx _ IH]; [reflexivity|]. simpl.
  destruct (f x); [|discriminate]. simpl. destruct (mapM f l); [reflexivity | discriminate].
Qed.

Lemma airport_names_are_strings (l : list json) :
  airports_ok (JList l) = true ->
  exists names, mapM (fun a => get a "name" (JStr "")) l = Ok names /\
                forallb is_str names = true.
Proof.
  simpl. induction l as [|a l IH]; simpl; [eauto|].
  intros [Ha Hl]%andb_true_iff. destruct (IH Hl) as (names & -> & Hnames).
  destruct a as [| | | | | |kvs]; try discriminate. simpl.
  destruct (dict_get "name" kvs) as [[]|]; try discriminate; simpl;
    eexists; (split; [reflexivity|]); simpl; exact Hnames.
Qed.

Section RenderFacts.
Context `{Runtime}.

Lemma near_row_well_formed (r : row) :
  row_converts r = true -> airports_ok (airports_json r) = true -> near_row r = Ok ().
Proof.
  unfold row_converts. intros [[_ Hm]%andb_true_iff Hd]%andb_true_iff Ha.
  unfold near_row. destruct (airports_json r) as [| | | | |l|]; try discriminate.
  destruct (airport_names_are_strings l Ha) as (names & Hn & Hs).
  destruct (row_mag r) as [m|]; [|discriminate].
  destruct (row_depth r) as [d|]; [|discriminate].
  destruct l as [|a l]; [reflexivity|].
  cbn [truthy py_iter]. cbn [mbind result_bind]. rewrite Hn. cbn. now rewrite Hs.
Qed.

(** When every stored airports value is a list of objects whose name, if
    any, is a string, the overview and the table view can show the latest
    200 rows of any table built by upserts. *)
Theorem well_formed_airports_render (history : list ((nat -> Z) * list json)) :
  forallb (fun r => airports_ok (airports_json r)) (store_after history) = true ->
  renders (take 200 (order_by_created_at_desc (store_after history))) = true.
Proof.
  intros Ha. pose proof (stored_rows_convert history) as Hc.
  set (st := store_after history) in *.
  assert (Hall : Forall (fun r => row_converts r = true /\
                                  airports_ok (airports_json r) = true)
                   (take 200 (order_by_created_at_desc st))).
  { apply Forall_take. rewrite (order_by_created_at_desc_perm st).
    apply Forall_forall. intros r Hr%list_elem_of_In.
    rewrite forallb_forall in Ha, Hc. auto. }
  unfold renders. apply andb_true_iff. split; apply mapM_is_ok;
    (eapply Forall_impl; [exact Hall|]); intros r [Hr Har]; simpl.
  - unfold row_converts in Hr. now apply andb_true_iff in Hr as [[_ ->]%andb_true_iff _].
  - now rewrite near_row_well_formed.
Qed.

End RenderFacts.

(** The table after the example feed is shown in full. *)
Lemma well_formed_airports_render_example :
  @renders example_runtime
    (take 200 (order_by_created_at_desc
                 (@store_after example_runtime [(example_clock, example_records)])))
  = true.
Proof.
  exact (@well_formed_airports_render example_runtime
           [(example_clock, example_records)] eq_refl).
Defined.

(** ** Upserting a batch twice *)

Lemma replace_by_id (r x : row) : earthquake_id (replace_by r x) = earthquake_id x.
Proof. unfold replace_by. now destruct same_key. Qed.

Lemma replace_all_id (rs : list row) (x : row) :
  earthquake_id (replace_all rs x) = earthquake_id x.
Proof.
  revert x. induction rs as [|r rs IH]; intros x; [reflexivity|].
  unfold replace_all in *. simpl. now rewrite IH, replace_by_id.
Qed.

Lemma replace_all_snoc (rs : list row) (r x : row) :
  replace_all (rs ++ [r]) x = replace_by r (replace_all rs x).
Proof. unfold replace_all. now rewrite foldl_app. Qed.

Lemma upsert_rows_snoc (rs : list row) (r : row) (st : list row) :
  upsert_rows (rs ++ [r]) st = upsert_row r (upsert_rows rs st).
Proof. unfold upsert_rows. now rewrite foldl_app. Qed.

Lemma upsert_rows_unique (rs : list row) (st : list row) :
  unique_ids st = true -> unique_ids (upsert_rows rs st) = true.
Proof.
  revert st. induction rs as [|r rs IH]; intros st Hu; [exact Hu|].
  apply IH. now apply upsert_row_unique.
Qed.

Lemma same_key_text_refl (r : row) :
  key_is_text r = true -> same_key (earthquake_id r) (earthquake_id r) = true.
Proof.
  unfold key_is_text. destruct (earthquake_id r); try discriminate.
  intros _. apply String.eqb_refl.
Qed.

Lemma same_key_left (a b c : sqlval) :
  same_key a b = true -> same_key a c = same_key b c.
Proof. intros (k & -> & ->)%same_key_true. reflexivity. Qed.

Lemma has_key_upsert_row_self (r : row) (st : list row) :
  key_is_text r = true -> has_key (upsert_row r st) r = true.
Proof.
  intros Hr. unfold has_key. induction st as [|old rest IH]; simpl.
  - now rewrite same_key_text_refl.
  - destruct (same_key (earthquake_id old) (earthquake_id r)) eqn:E; simpl.
    + now rewrite E.
    + now rewrite E.
Qed.

Lemma has_key_upsert_row (r r' : row) (st : list row) :
  has_key st r = true -> has_key (upsert_row r' st) r = true.
Proof.
  unfold has_key. induction st as [|old rest IH]; simpl; [discriminate|].
  intros [Hold|Hrest]%orb_true_iff;
    destruct (same_key (earthquake_id old) (earthquake_id r')); simpl.
  - now rewrite Hold.
  - now rewrite Hold.
  - rewrite Hrest. apply orb_true_r.
  - rewrite (IH Hrest). apply orb_true_r.
Qed.

Lemma has_key_upsert_rows (rs : list row) (r : row) (st : list row) :
  has_key st r = true -> has_key (upsert_rows rs st) r = true.
Proof.
  revert st. induction rs as [|r' rs IH]; intros st Hk; [exact Hk|].
  apply IH. now apply has_key_upsert_row.
Qed.

Lemma has_key_map_replace_by (r r' : row) (st : list row) :
  has_key (map (replace_by r') st) r = has_key st r.
Proof.
  unfold has_key. induction st as [|x rest IH]; simpl; [reflexivity|].
  now rewrite replace_by_id, IH.
Qed.

Lemma forallb_keys_map_replace_by (P : sqlval -> bool) (r : row) (st : list row) :
  forallb (fun x => P (earthquake_id x)) (map (replace_by r) st)
  = forallb (fun x => P (earthquake_id x)) st.
Proof.
  induction st as [|x rest IH]; simpl; [reflexivity|].
  now rewrite replace_by_id, IH.
Qed.

Lemma unique_ids_map_replace_by (r : row) (st : list row) :
  unique_ids (map (replace_by r) st) = unique_ids st.
Proof.
  induction st as [|x rest IH]; simpl; [reflexivity|].
  rewrite IH, replace_by_id. f_equal.
  apply (forallb_keys_map_replace_by (fun k => negb (same_key (earthquake_id x) k))).
Qed.

(** On a table that holds the key, the upsert changes the rows in place. *)
Lemma upsert_row_present (r : row) (st : list row) :
  unique_ids st = true -> has_key st r = true ->
  upsert_row r st = map (replace_by r) st.
Proof.
  unfold has_key. induction st as [|old rest IH]; simpl; [discriminate|].
  intros [Hold Hrest]%andb_true_iff Hk. unfold replace_by at 1.
  destruct (same_key (earthquake_id old) (earthquake_id r)) eqn:E.
  - f_equal. clear IH Hk Hrest. induction rest as [|x rest' IH]; [reflexivity|].
    simpl in Hold. apply andb_true_iff in Hold as [Hx Hrest'].
    simpl. rewrite <- (IH Hrest'). f_equal. unfold replace_by.
    rewrite (same_key_sym (earthquake_id x)), <- (same_key_left _ _ _ E).
    apply negb_true_iff in Hx. now rewrite Hx.
  - f_equal. now apply IH.
Qed.

Lemma upsert_rows_present (rs : list row) (st : list row) :
  unique_ids st = true -> forallb (has_key st) rs = true ->
  upsert_rows rs st = map (replace_all rs) st.
Proof.
  revert st. induction rs as [|r rs IH]; intros st Hu Hk.
  - unfold upsert_rows, replace_all. simpl. now rewrite map_id.
  - simpl in Hk. apply andb_true_iff in Hk as [Hr Hrs].
    unfold upsert_rows, replace_all. simpl.
    rewrite (upsert_row_present r st Hu Hr).
    fold (upsert_rows rs (map (replace_by r) st)). rewrite IH.
    + rewrite map_map. reflexivity.
    + now rewrite unique_ids_map_replace_by.
    + apply forallb_forall. intros r' Hr'. rewrite has_key_map_replace_by.
      rewrite forallb_forall in Hrs. auto.
Qed.

(** The rows of a table after an upsert. *)
Lemma in_upsert_row (r x : row) (st : list row) :
  unique_ids st = true -> In x (upsert_row r st) ->
  (In x st /\ same_key (earthquake_id x) (earthquake_id r) = false) \/
  (exists old, same_key (earthquake_id old) (earthquake_id r) = true /\ x = do_update old r) \/
  x = r.
Proof.
  induction st as [|old rest IH]; simpl.
  - intros _ [<-|[]]. auto.
  - intros [Hold Hrest]%andb_true_iff.
    destruct (same_key (earthquake_id old) (earthquake_id r)) eqn:E; simpl.
    + intros [<-|Hin]; [right; left; eauto|].
      left. split; [now right|].
      rewrite forallb_forall in Hold. specialize (Hold x Hin).
      apply negb_true_iff in Hold.
      now rewrite same_key_sym, <- (same_key_left _ _ _ E), Hold.
    + intros [<-|Hin]; [left; auto|].
      destruct (IH Hrest Hin) as [[Hx Hne]|[Hupd|Heq]]; auto.
Qed.

Lemma upsert_rows_fixed (rs : list row) (st : list row) :
  unique_ids st = true -> forallb key_is_text rs = true ->
  forall x, In x (upsert_rows rs st) -> replace_all rs x = x.
Proof.
  intros Hu. induction rs as [|r rs IH] using rev_ind; [reflexivity|].
  rewrite forallb_app. intros [Hrs Hr]%andb_true_iff x.
  simpl in Hr. rewrite andb_true_r in Hr.
  rewrite upsert_rows_snoc, replace_all_snoc. intros Hin.
  apply in_upsert_row in Hin; [|now apply upsert_rows_unique].
  destruct Hin as [[Hx Hne]|[(old & Hold & Heq)|Heq]]; try subst x.
  - rewrite (IH Hrs x Hx). unfold replace_by. now rewrite Hne.
  - unfold replace_by. rewrite replace_all_id. simpl. rewrite Hold.
    unfold do_update. simpl. now rewrite replace_all_id.
  - unfold replace_by. rewrite replace_all_id, (same_key_text_refl r Hr).
    destruct r; unfold do_update; simpl. now rewrite replace_all_id.
Qed.

Lemma upsert_rows_has_keys (rs : list row) (st : list row) :
  forallb key_is_text rs = true -> forallb (has_key (upsert_rows rs st)) rs = true.
Proof.
  induction rs as [|r rs IH] using rev_ind; [reflexivity|].
  rewrite !forallb_app. intros [Hrs Hr]%andb_true_iff.
  simpl in Hr. rewrite andb_true_r in Hr. rewrite upsert_rows_snoc.
  apply andb_true_iff. split.
  - apply forallb_forall. intros r' Hr'. apply has_key_upsert_row.
    specialize (IH Hrs). rewrite forallb_forall in IH. auto.
  - simpl. now rewrite has_key_upsert_row_self.
Qed.

Lemma upsert_rows_idempotent (rs : list row) (st : list row) :
  unique_ids st = true -> forallb key_is_text rs = true ->
  upsert_rows rs (upsert_rows rs st) = upsert_rows rs st.
Proof.
  intros Hu Hrs.
  rewrite (upsert_rows_present rs (upsert_rows rs st));
    [|now apply upsert_rows_unique | now apply upsert_rows_has_keys].
  rewrite <- (map_id (upsert_rows rs st)) at 2.
  apply map_ext_in. intros x Hx. now apply (upsert_rows_fixed rs st).
Qed.

Section IdempotenceFacts.
Context `{Runtime}.

Lemma upsert_from_rows (clk : nat -> Z) (items : list json) (i : nat) (st : list row) :
  (upsert_from clk i items st).1 = upsert_rows (batch_rows clk i items) st.
Proof.
  revert i st. induction items as [|e rest IH]; intros i st; [reflexivity|].
  rewrite upsert_from_cons. simpl. destruct (normalize (clk i) e); simpl; apply IH.
Qed.

Lemma batch_rows_text (clk : nat -> Z) (items : list json) (i : nat) :
  (forall j e r, nth_error items j = Some e -> normalize (clk (i + j)%nat) e = Ok r ->
     key_is_text r = true) ->
  forallb key_is_text (batch_rows clk i items) = true.
Proof.
  revert i. induction items as [|e rest IH]; intros i Hall; [reflexivity|]. simpl.
  assert (Hrest : forallb key_is_text (batch_rows clk (S i) rest) = true).
  { apply IH. intros j e' r Hj Hn. apply (Hall (S j) e' r Hj).
    now replace (i + S j)%nat with (S i + j)%nat by lia. }
  destruct (normalize (clk i) e) as [r|] eqn:E; [|exact Hrest].
  simpl. rewrite Hrest, andb_true_r. apply (Hall 0%nat e r eq_refl).
  now rewrite Nat.add_0_r.
Qed.

(** Upserting the same batch a second time, with the same clock readings,
    changes nothing, provided the table satisfies its PRIMARY KEY
    constraint and no record of the batch is stored under a NULL key. *)
Theorem upsert_twice_is_upsert_once (clk : nat -> Z) (items : list json)
    (st : list row) :
  unique_ids st = true ->
  (forall j e r, nth_error items j = Some e -> normalize (clk j) e = Ok r ->
     key_is_text r = true) ->
  (db_upsert_earthquakes clk items (db_upsert_earthquakes clk items st).1).1
  = (db_upsert_earthquakes clk items st).1.
Proof.
  intros Hu Htext. unfold db_upsert_earthquakes. rewrite !upsert_from_rows.
  apply upsert_rows_idempotent; [exact Hu|].
  apply batch_rows_text. exact Htext.
Qed.

End IdempotenceFacts.

(** A NULL key breaks it: the record is inserted again. *)
Lemma upsert_twice_with_null_key :
  let items := [JDict [("earthquake_id", JFloat nan)]] in
  let st1 := (@db_upsert_earthquakes example_runtime example_clock items []).1 in
  let st2 := (@db_upsert_earthquakes example_runtime example_clock items st1).1 in
  length st1 = 1%nat /\ length st2 = 2%nat.
Proof. split; reflexivity. Qed.

Lemma upsert_twice_example :
  let st1 := (@db_upsert_earthquakes example_runtime example_clock example_records []).1 in
  (@db_upsert_earthquakes example_runtime example_clock example_records st1).1 = st1.
Proof.
  intros st1. apply (@upsert_twice_is_upsert_once example_runtime); [reflexivity|].
  intros [|[|[|j]]] e r Hj Hn; simpl in Hj; try discriminate;
    injection Hj as <-; vm_compute in Hn; injection Hn as <-; reflexivity.
Defined.

(** ** Reading back what was written *)

Lemma filter_Permutation_list {A} (P : A -> bool) (l l' : list A) :
  Permutation l l' -> Permutation (List.filter P l) (List.filter P l').
Proof.
  induction 1 as [|x l l' _ IH|x y l|l l' l'' _ IH1 _ IH2]; simpl.
  - constructor.
  - destruct (P x); [now constructor | exact IH].
  - destruct (P x), (P y); try reflexivity. apply perm_swap.
  - now transitivity (List.filter P l').
Qed.

Lemma fetch_last_sorted_prefix_aux (k : Z) (st : list row) :
  0 <= k < 2 ^ 63 ->
  exists rows, db_fetch_last k st = Ok rows /\
               rows = take (Z.to_nat k) (order_by_created_at_desc st).
Proof.
  intros [Hlo Hhi]. eexists. split; [|reflexivity].
  unfold db_fetch_last, bind_int, int64.
  replace (- 2 ^ 63 <=? k) with true by (symmetry; apply Z.leb_le; lia).
  replace (k <? 2 ^ 63) with true by (symmetry; apply Z.ltb_lt; lia).
  simpl. unfold sql_limit.
  now replace (k <? 0) with false by (symmetry; apply Z.ltb_ge; lia).
Qed.

Section FetchFacts.
Context `{Runtime}.

(** A record that was upserted can be read back: with a limit above the
    size of the table, [db_fetch_last] returns exactly one row under the
    record's key, and it is the record's row. *)
Theorem upserted_record_is_fetched (clk : nat -> Z) (e : json) (r : row)
    (k : string) (st : list row) (limit : Z) :
  unique_ids st = true ->
  normalize (clk 0%nat) e = Ok r ->
  earthquake_id r = SText k ->
  Z.of_nat (length st) < limit < 2 ^ 63 ->
  exists rows,
    db_fetch_last limit (db_upsert_earthquakes clk [e] st).1 = Ok rows /\
    List.filter (has_id k) rows = [r].
Proof.
  intros Hu Hn Hk [Hlo Hhi].
  unfold db_upsert_earthquakes. rewrite upsert_from_cons, Hn. simpl.
  destruct (fetch_last_sorted_prefix_aux limit (upsert_row r st)) as (rows & Hrows & Heq);
    [lia|].
  exists rows. split; [exact Hrows|]. subst rows.
  rewrite take_ge.
  2:{ rewrite (Permutation_length (order_by_created_at_desc_perm _)).
      pose proof (upsert_row_length r st). lia. }
  apply Permutation_length_1_inv.
  rewrite <- (filter_has_id_upsert_row k r st Hu Hk) at 1.
  apply filter_Permutation_list. symmetry. apply order_by_created_at_desc_perm.
Qed.

(** A larger limit only adds rows at the end of the result, and a limit
    that reaches the size of the table returns all of its rows. *)
Theorem fetch_last_grows_with_limit (k k' : Z) (st : list row) :
  0 <= k <= k' -> k' < 2 ^ 63 ->
  exists rows rows',
    db_fetch_last k st = Ok rows /\ db_fetch_last k' st = Ok rows' /\
    rows `prefix_of` rows' /\
    (Z.of_nat (length st) <= k' -> Permutation rows' st).
Proof.
  intros [Hk Hkk'] Hk'.
  destruct (fetch_last_sorted_prefix_aux k st) as (rows & Hrows & ->); [lia|].
  destruct (fetch_last_sorted_prefix_aux k' st) as (rows' & Hrows' & ->); [lia|].
  eexists _, _. split; [exact Hrows | split; [exact Hrows' | split]].
  - replace (Z.to_nat k) with (Z.to_nat k `min` Z.to_nat k')%nat by lia.
    rewrite <- take_take. apply prefix_take.
  - intros Hlen. rewrite take_ge; [apply order_by_created_at_desc_perm|].
    rewrite (Permutation_length (order_by_created_at_desc_perm _)). lia.
Qed.

End FetchFacts.

(** ** Settings at start-up *)

Lemma setitem_keeps_keys (k v : json) (d d' : settings) (name : string) :
  setitem k v d = Ok d' -> is_Some (by_name d !! name) -> is_Some (by_name d' !! name).
Proof.
  unfold setitem. destruct k; try (destruct (hashable _); [|discriminate]);
    intros [= <-]; simpl; auto.
  intros Hs. destruct (decide (s = name)) as [->|Hne].
  - rewrite lookup_insert_eq. eauto.
  - now rewrite lookup_insert_ne.
Qed.

Lemma update_items_keeps_keys (items : list json) (d d' : settings) (name : string) :
  update_items d items = Ok d' ->
  is_Some (by_name d !! name) -> is_Some (by_name d' !! name).
Proof.
  revert d. induction items as [|item rest IH]; intros d Hu Hs; simpl in Hu.
  - now injection Hu as <-.
  - apply bind_Ok in Hu as (d1 & H1 & Hu). apply (IH d1 Hu).
    unfold update_item in H1. apply bind_Ok in H1 as (xs & _ & H1).
    destruct xs as [|k [|v [|]]]; try discriminate.
    now apply (setitem_keeps_keys k v d).
Qed.

(** Whatever the settings file holds, the loaded settings have every key
    of the defaults: the program never meets a missing setting. *)
Theorem load_settings_keeps_default_keys (file : settings_file) (name : string) :
  is_Some (by_name DEFAULT_SETTINGS !! name) ->
  is_Some (by_name (load_settings file) !! name).
Proof.
  intros Hs. destruct file as [| |s]; simpl; auto.
  destruct (update DEFAULT_SETTINGS s) as [d|] eqn:E; [|exact Hs].
  destruct s; unfold update in E; cbn [py_iter mbind result_bind] in E;
    try discriminate; try exact (update_items_keeps_keys _ _ _ name E Hs).
  injection E as <-. simpl. rewrite lookup_update_members.
  destruct (dict_get name kvs); [eauto | exact Hs].
Qed.

Lemma load_settings_keeps_default_keys_example :
  is_Some (by_name (load_settings (Parsed (JList [JList [JStr "a"; JInt 1]])))
             !! "map_min_mag").
Proof. apply load_settings_keeps_default_keys. vm_compute. eauto. Defined.

Section TimerFacts.
Context `{Runtime}.

(** When the refresh interval of the settings converts to an integer, the
    timer is set to a whole number of minutes, at least one. *)
Theorem timer_interval_at_least_a_minute (s : settings) (ms : Z) :
  timer_interval s = Ok ms -> 60000 <= ms /\ ms mod 60000 = 0.
Proof.
  unfold timer_interval. intros (n & _ & [= <-])%bind_Ok. split; [lia|].
  replace (Z.max 1 n * 60 * 1000) with (Z.max 1 n * 60000) by lia.
  apply Z_mod_mult.
Qed.

End TimerFacts.

Lemma timer_interval_example :
  60000 <= 300000 /\ 300000 mod 60000 = 0.
Proof.
  exact (@timer_interval_at_least_a_minute example_runtime DEFAULT_SETTINGS 300000 eq_refl).
Defined.

(** A refresh interval that is not a number stops [MainWindow.__init__]:
    the conversion raises outside any [try]. *)
Lemma timer_interval_can_raise :
  @timer_interval example_runtime
    (load_settings (Parsed (JDict [("auto_refresh_minutes", JList [])])))
  = Raise TypeError.
Proof. reflexivity. Qed.

(** ** The risk heuristic *)

Lemma risk_level_eqb_eq (l1 l2 : risk_level) : risk_level_eqb l1 l2 = true -> l1 = l2.
Proof. now destruct l1, l2. Qed.

Lemma floor_values_range (f : Z) : 1 <= f <= 50 -> In f floor_values.
Proof.
  intros Hf. unfold floor_values. apply in_map_iff. exists (Z.to_nat f).
  split; [lia|]. apply in_seq. lia.
Qed.

Lemma risk_levels_checked :
  forallb (fun f =>
    forallb (fun a =>
      forallb (fun b =>
        risk_level_eqb (risk_level_of (risk_points a f b)) (exact_risk_level a f b))
      [4; 2; 0]) [5; 3; 1]) floor_values = true.
Proof. vm_compute. reflexivity. Qed.

(** For every value of the three inputs of the form, the level computed
    with floating-point additions is the level of the exact score
    [a + b + 2f/5]: rounding never moves a building across a threshold. *)
Theorem risk_level_is_exact (y f : Z) (q : quality) :
  1 <= f <= 50 ->
  RiskTab_calc y f q = exact_risk_level (year_points y) f (quality_points q).
Proof.
  intros Hf%floor_values_range. unfold RiskTab_calc.
  pose proof risk_levels_checked as Hc. rewrite forallb_forall in Hc.
  specialize (Hc f Hf). rewrite forallb_forall in Hc.
  assert (Ha : In (year_points y) [5; 3; 1]).
  { unfold year_points. destruct (y <? 1980); [now left|].
    destruct (y <? 2000); [right; now left | right; right; now left]. }
  specialize (Hc _ Ha). rewrite forallb_forall in Hc.
  assert (Hb : In (quality_points q) [4; 2; 0]).
  { destruct q; simpl; auto. }
  exact (risk_level_eqb_eq _ _ (Hc _ Hb)).
Qed.

Lemma risk_level_is_exact_example : RiskTab_calc 1975 12 Orta = YUKSEK.
Proof.
  rewrite (risk_level_is_exact 1975 12 Orta ltac:(split; discriminate)). reflexivity.
Defined.

(** More floors, an older building or a worse construction never lower the
    level. *)
Theorem risk_level_monotone (y y' f f' : Z) (q q' : quality) :
  1 <= f <= f' -> f' <= 50 -> y' <= y -> quality_points q <= quality_points q' ->
  (risk_rank (RiskTab_calc y f q) <= risk_rank (RiskTab_calc y' f' q'))%nat.
Proof.
  intros Hf Hf' Hy Hq.
  rewrite !risk_level_is_exact by lia.
  assert (Ha : year_points y <= year_points y').
  { unfold year_points.
    destruct (Z.ltb_spec y 1980), (Z.ltb_spec y 2000),
             (Z.ltb_spec y' 1980), (Z.ltb_spec y' 2000); lia. }
  unfold exact_risk_level.
  destruct (Z.leb_spec 50 (5 * (year_points y + quality_points q) + 2 * f)),
           (Z.leb_spec 30 (5 * (year_points y + quality_points q) + 2 * f)),
           (Z.leb_spec 50 (5 * (year_points y' + quality_points q') + 2 * f')),
           (Z.leb_spec 30 (5 * (year_points y' + quality_points q') + 2 * f'));
    simpl; lia.
Qed.

Lemma risk_level_monotone_example :
  (risk_rank (RiskTab_calc 2005 3 Iyi) <= risk_rank (RiskTab_calc 1975 12 Orta))%nat.
Proof.
  apply risk_level_monotone; [split | | |]; discriminate.
Defined.

(** ** A click on the table *)

Lemma float_eqb_key (x y : float) :
  PrimFloat.eqb x y = true <->
  exists k, sf_key (Prim2SF x) = Some k /\ sf_key (Prim2SF y) = Some k.
Proof.
  rewrite FloatAxioms.eqb_spec. unfold SFeqb.
  pose proof (SFcompare_key (Prim2SF x) (Prim2SF y)) as Hc.
  destruct (SFcompare (Prim2SF x) (Prim2SF y)) as [[]|],
           (sf_key (Prim2SF x)) as [k1|], (sf_key (Prim2SF y)) as [k2|];
    try contradiction;
    (split; [intros Ht | intros (k & Hk1 & Hk2)]);
    try discriminate; try reflexivity.
  - subst. eauto.
  - injection Hk1 as <-. injection Hk2 as <-.
    destruct (key_lt_irrefl_le _ _ Hc (key_le_refl _)).
  - injection Hk1 as <-. injection Hk2 as <-.
    destruct (key_lt_irrefl_le _ _ Hc (key_le_refl _)).
Qed.

Lemma float_eqb_sym (x y : float) :
  PrimFloat.eqb x y = true -> PrimFloat.eqb y x = true.
Proof. rewrite !float_eqb_key. intros (k & H1 & H2). eauto. Qed.

Lemma float_eqb_refl (x : float) : PrimFloat.is_nan x = false -> PrimFloat.eqb x x = true.
Proof. unfold PrimFloat.is_nan. now intros ->%negb_false_iff. Qed.

Lemma py_index_nth {A} (l : list A) (i : nat) (x : A) :
  nth_error l i = Some x -> py_index l (Z.of_nat i) = Ok x.
Proof.
  intros Hx. assert (Hi : (i < length l)%nat) by (apply nth_error_Some; congruence).
  unfold py_index.
  replace (Z.of_nat i <? 0) with false by (symmetry; apply Z.ltb_ge; lia).
  replace (0 <=? Z.of_nat i) with true by (symmetry; apply Z.leb_le; lia).
  replace (Z.of_nat i <? Z.of_nat (length l)) with true by (symmetry; apply Z.ltb_lt; lia).
  simpl. now rewrite Nat2Z.id, Hx.
Qed.

Lemma py_index_Ok {A} (l : list A) (i : Z) (x : A) :
  py_index l i = Ok x ->
  - Z.of_nat (length l) <= i < Z.of_nat (length l) /\ In x l.
Proof.
  unfold py_index.
  destruct (Z.ltb_spec i 0);
    match goal with |- context [(0 <=? ?j) && (?j <? ?n)] =>
      destruct (Z.leb_spec 0 j), (Z.ltb_spec j n); simpl; try discriminate;
      destruct (nth_error l (Z.to_nat j)) eqn:E; try discriminate;
      intros [= <-]; (split; [lia | eapply nth_error_In; exact E])
    end.
Qed.

Section ClickFacts.
Context `{Runtime}.

(** A float that is not a NaN is stored in a REAL column as a float equal
    to it. *)
Lemma stored_float_is_equal (x : float) :
  PrimFloat.is_nan x = false ->
  exists x', real_affinity (if PrimFloat.is_nan x then SNull else SReal x) = SReal x' /\
             PrimFloat.eqb x' x = true.
Proof.
  intros Hx. rewrite Hx. unfold real_affinity, integer_affinity, real_to_integer.
  destruct (int_of_float x) as [z|ex].
  - destruct (PrimFloat.eqb x (float_of_Z z)) eqn:E; simpl.
    + destruct (_ && _); simpl; eauto using float_eqb_sym, float_eqb_refl.
    + eauto using float_eqb_refl.
  - eauto using float_eqb_refl.
Qed.

(** A click on the row of a stored record hands the map the coordinates
    the record came with: the longitude and latitude that were extracted,
    when neither is a NaN, come back equal after the way through the
    table. *)
Theorem click_focuses_on_record_coordinates (now : Z) (e : json) (r : row)
    (geo : json) (x y : float) (rows : list row) (i : nat) :
  normalize now e = Ok r ->
  coordinates e = Ok geo -> coordinate geo 0 = Ok x -> coordinate geo 1 = Ok y ->
  PrimFloat.is_nan x = false -> PrimFloat.is_nan y = false ->
  nth_error rows i = Some r ->
  exists fc, NearTab_clicked rows (Z.of_nat i) = Some fc /\
             PrimFloat.eqb (f_lon fc) x = true /\ PrimFloat.eqb (f_lat fc) y = true /\
             f_title fc = py_of_sql (title r).
Proof.
  intros Hn Hgeo Hx Hy Hnx Hny Hi.
  pose proof (normalize_row_converts now e r Hn) as Hc.
  apply normalize_numeric_fields in Hn
    as (m & dp & geo' & x' & y' & _ & _ & Hgeo' & Hx' & Hy' & _ & _ & Hlon & Hlat).
  rewrite Hgeo in Hgeo'. injection Hgeo' as <-.
  rewrite Hx in Hx'. injection Hx' as <-. rewrite Hy in Hy'. injection Hy' as <-.
  destruct (stored_float_is_equal x Hnx) as (sx & Hsx & Ex).
  destruct (stored_float_is_equal y Hny) as (sy & Hsy & Ey).
  rewrite Hsx in Hlon. rewrite Hsy in Hlat.
  unfold row_converts in Hc. apply andb_true_iff in Hc as [[_ Hm]%andb_true_iff _].
  destruct (row_mag r) as [mg|] eqn:Em; [|discriminate].
  unfold NearTab_clicked. rewrite (py_index_nth rows i r Hi).
  cbn [mbind result_bind]. rewrite Hlon, Hlat, Em. cbn.
  eexists. split; [reflexivity|]. simpl. auto.
Qed.

Lemma py_index_row {A} (l : list A) (i : Z) (x : A) :
  py_index l i = Ok x ->
  - Z.of_nat (length l) <= i < Z.of_nat (length l) /\
  nth_error l (Z.to_nat (if i <? 0 then Z.of_nat (length l) + i else i)) = Some x.
Proof.
  unfold py_index.
  destruct (Z.ltb_spec i 0);
    match goal with |- context [(0 <=? ?j) && (?j <? ?n)] =>
      destruct (Z.leb_spec 0 j), (Z.ltb_spec j n); simpl; try discriminate;
      destruct (nth_error l (Z.to_nat j)) eqn:E; try discriminate;
      intros [= <-]; (split; [lia | reflexivity])
    end.
Qed.

(** A click focuses the map only on the clicked row and only with that
    row's values.  When [_clicked] hands a focus to the map, the row index
    is inside the list ([-len <= ix < len], a negative index counting from
    the end), the longitude and latitude of the row at that index are not
    NULL, and the focus carries the longitude, latitude, magnitude and
    title of that very row. *)
Theorem click_needs_row_and_coordinates (rows : list row) (ix : Z) (fc : focus) :
  NearTab_clicked rows ix = Some fc ->
  - Z.of_nat (length rows) <= ix < Z.of_nat (length rows) /\
  exists r,
    nth_error rows (Z.to_nat (if ix <? 0 then Z.of_nat (length rows) + ix else ix))
    = Some r /\
    lon r <> SNull /\ lat r <> SNull /\
    py_float (py_of_sql (lon r)) = Ok (f_lon fc) /\
    py_float (py_of_sql (lat r)) = Ok (f_lat fc) /\
    row_mag r = Ok (f_mag fc) /\
    f_title fc = py_of_sql (title r).
Proof.
  unfold NearTab_clicked.
  destruct (py_index rows ix) as [r|] eqn:Er; [|discriminate].
  apply py_index_row in Er as [Hrange Hnth]. cbn [mbind result_bind].
  intros Hc. split; [exact Hrange|]. exists r. split; [exact Hnth|].
  destruct (py_float (py_of_sql (lon r))) as [x|] eqn:Ex; [|discriminate].
  destruct (py_float (py_of_sql (lat r))) as [y|] eqn:Ey; [|discriminate].
  destruct (row_mag r) as [m|] eqn:Em; [|discriminate].
  injection Hc as <-. cbn [f_lon f_lat f_mag f_title].
  repeat split; try reflexivity.
  - intros Hnull. rewrite Hnull in Ex. discriminate.
  - intros Hnull. rewrite Hnull in Ey. discriminate.
Qed.

End ClickFacts.

Lemma click_focuses_example :
  exists fc,
    @NearTab_clicked example_runtime
      (@store_after example_runtime [(example_clock, example_records)]) 1 = Some fc /\
    PrimFloat.eqb (f_lon fc) 35 = true /\ PrimFloat.eqb (f_lat fc) 39 = true /\
    f_title fc = JStr "".
Proof.
  exact (@click_focuses_on_record_coordinates example_runtime 0
           (JDict [("earthquake_id", JStr "b"); ("mag", JFloat 3);
                   ("geojson", JDict [("coordinates", JList [JFloat 35; JFloat 39])]);
                   ("created_at", JInt 2000)])
           _ _ 35 39 (@store_after example_runtime [(example_clock, example_records)])
           1%nat eq_refl eq_refl eq_refl eq_refl eq_refl eq_refl eq_refl).
Defined.

Lemma click_needs_row_example :
  let rows := @store_after example_runtime [(example_clock, example_records)] in
  - 2 <= -1 < 2 /\
  exists r, nth_error rows 1 = Some r /\
            lon r <> SNull /\ lat r <> SNull /\
            @py_float example_runtime (py_of_sql (lon r)) = Ok 35%float /\
            @py_float example_runtime (py_of_sql (lat r)) = Ok 39%float /\
            @row_mag example_runtime r = Ok 3%float /\
            JStr "" = py_of_sql (title r).
Proof.
  exact (@click_needs_row_and_coordinates example_runtime
           (@store_after example_runtime [(example_clock, example_records)]) (-1)
           {| f_lat := 39; f_lon := 35; f_mag := 3; f_title := JStr "" |} eq_refl).
Defined.

(** A record whose longitude is a NaN is stored with a NULL longitude, and
    a click on its row focuses nothing. *)
Lemma click_on_nan_coordinate :
  let e := JDict [("earthquake_id", JStr "a");
                  ("geojson", JDict [("coordinates", JList [JFloat nan; JFloat 41])])] in
  let st := @store_after example_runtime [(example_clock, [e])] in
  map lon st = [SNull] /\ @NearTab_clicked example_runtime st 0 = None.
Proof. split; reflexivity. Qed.

(** ** What one cycle does to the network and to the table *)

Lemma sends_at_most_bind (n k : nat) {A B} (m : M A) (f : A -> M B) :
  sends_at_most n m -> (forall a, sends_at_most k (f a)) ->
  sends_at_most (n + k) (m ≫= f).
Proof.
  intros Hm Hf w. rewrite run_bind. specialize (Hm w).
  destruct (run m w) as [[[a|ex] w1] ev1]; simpl in *; [|lia].
  specialize (Hf a w1). lia.
Qed.

Lemma sends_at_most_weaken (n k : nat) {A} (m : M A) :
  (n <= k)%nat -> sends_at_most n m -> sends_at_most k m.
Proof. intros Hle Hm w. specialize (Hm w). lia. Qed.

Lemma sends_nothing_ret {A} (a : A) : sends_at_most 0 (mret a).
Proof. intros w. simpl. lia. Qed.

Lemma sends_nothing_lift {A} (r : result A) : sends_at_most 0 (lift r).
Proof. intros w. simpl. lia. Qed.

Lemma sends_nothing_emit (ev : event) : sends_at_most 0 (emit ev).
Proof. intros w. simpl. lia. Qed.

Lemma sends_nothing_fetch_last (limit : Z) : sends_at_most 0 (fetch_last limit).
Proof. intros w. simpl. lia. Qed.

Lemma sends_nothing_MapTab_set_data (rows : list row) :
  sends_at_most 0 (MapTab_set_data rows).
Proof.
  unfold MapTab_set_data, MapTab_refresh.
  apply (sends_at_most_bind 0 0); [apply sends_nothing_emit|]. intros _.
  apply (sends_at_most_bind 0 0); [intros w; simpl; lia|]. intros w.
  destruct (map_thread_running w); [apply sends_nothing_ret|].
  apply (sends_at_most_bind 0 0); [intros w'; simpl; lia|]. intros _.
  apply sends_nothing_emit.
Qed.

Lemma keeps_filled_db_bind {A B} (m : M A) (f : A -> M B) :
  keeps_filled_db m -> (forall a, keeps_filled_db (f a)) -> keeps_filled_db (m ≫= f).
Proof.
  intros Hm Hf w Hw. rewrite run_bind. specialize (Hm w Hw).
  destruct (run m w) as [[[a|ex] w1] ev1]; cbn in *; [|exact Hm].
  rewrite (Hf a w1); [exact Hm | now rewrite Hm].
Qed.

Lemma keeps_db_filled {A} (m : M A) : keeps_db m -> keeps_filled_db m.
Proof. intros Hm w _. apply Hm. Qed.

Lemma take_order_filled (st : list row) :
  st <> [] -> take 200 (order_by_created_at_desc st) <> [].
Proof.
  intros Hst Ht. apply (f_equal length) in Ht. rewrite length_take in Ht.
  rewrite (Permutation_length (order_by_created_at_desc_perm st)) in Ht.
  destruct st; [congruence | simpl in Ht; lia].
Qed.

Section CycleFacts.
Context `{Runtime}.
Variable env : Env.

Lemma sends_one_api_get_io (url : string) (ps : list (string * string)) :
  sends_at_most 1 (api_get_io env url ps).
Proof. intros w. rewrite run_api_get_io. simpl. lia. Qed.

Lemma sends_nothing_upsert (items : list json) : sends_at_most 0 (upsert env items).
Proof. intros w. rewrite run_upsert. simpl. lia. Qed.

Lemma sends_at_most_NearTab_refresh_data : sends_at_most 1 (NearTab_refresh_data env).
Proof.
  unfold NearTab_refresh_data.
  apply (sends_at_most_bind 0 1); [apply sends_nothing_fetch_last|]. intros rows.
  apply (sends_at_most_bind 1 0).
  - destruct rows; [|apply (sends_at_most_weaken 0); [lia | apply sends_nothing_ret]].
    apply (sends_at_most_bind 1 0); [apply sends_one_api_get_io|]. intros eqs.
    apply (sends_at_most_bind 0 0); [apply sends_nothing_upsert|]. intros _.
    apply sends_nothing_fetch_last.
  - intros rows'. apply (sends_at_most_bind 0 0); [apply sends_nothing_lift|].
    intros _. apply sends_nothing_emit.
Qed.

Lemma sends_at_most_reload_and_distribute :
  sends_at_most 1 (reload_and_distribute env).
Proof.
  unfold reload_and_distribute.
  apply (sends_at_most_bind 0 1); [apply sends_nothing_fetch_last|]. intros rows.
  apply (sends_at_most_bind 0 1).
  { unfold HomeTab_update_overview.
    apply (sends_at_most_bind 0 0); [apply sends_nothing_lift|].
    intros _. apply sends_nothing_emit. }
  intros _. apply (sends_at_most_bind 0 1); [apply sends_nothing_MapTab_set_data|].
  intros _. apply (sends_at_most_bind 1 0); [apply sends_at_most_NearTab_refresh_data|].
  intros _. apply (sends_at_most_bind 0 0); [apply sends_nothing_emit|].
  intros _. apply (sends_at_most_bind 0 0); [apply sends_nothing_lift|].
  intros _. apply sends_nothing_emit.
Qed.

Lemma sends_nothing_store_and_notify (s : settings) (live : list json) :
  sends_at_most 0 (store_and_notify env s live).
Proof.
  unfold store_and_notify. destruct live as [|top rest]; [apply sends_nothing_ret|].
  apply (sends_at_most_bind 0 0); [apply sends_nothing_upsert|]. intros _.
  apply (sends_at_most_bind 0 0); [apply sends_nothing_lift|]. intros m.
  destruct (PrimFloat.leb (threshold s) m); [|apply sends_nothing_ret].
  apply (sends_at_most_bind 0 0); [apply sends_nothing_lift|]. intros shown.
  apply sends_nothing_emit.
Qed.

(** One cycle sends one request, or two: the second is the table view's
    own fetch for an empty table. *)
Theorem refresh_all_sends_one_or_two_requests (s : settings) (w : World) :
  (requests_made w < requests_made (refresh_all env s w).1 <= requests_made w + 2)%nat.
Proof.
  unfold refresh_all, refresh_all_try, fetch_live_earthquakes.
  rewrite run_bind, run_api_get_io.
  set (live := (api_get API_LIVE (net env (requests_made w))).1).
  assert (Hup : sends_at_most 1
            (store_and_notify env s live ≫= fun _ => reload_and_distribute env)).
  { apply (sends_at_most_bind 0 1); [apply sends_nothing_store_and_notify|].
    intros _. apply sends_at_most_reload_and_distribute. }
  assert (Hlo : tame (fun _ => true)
            (store_and_notify env s live ≫= fun _ => reload_and_distribute env)).
  { apply tame_bind; [apply tame_store_and_notify|]. intros _.
    apply (tame_weaken plain); [auto | apply tame_reload_and_distribute]. }
  specialize (Hup (count_request w)). destruct (Hlo (count_request w)) as [_ Hle].
  cbn [requests_made count_request] in Hup, Hle.
  destruct (run _ (count_request w)) as [[[u|ex] w2] ev2]; cbn in *; lia.
Qed.

Lemma keeps_filled_db_NearTab_refresh_data : keeps_filled_db (NearTab_refresh_data env).
Proof.
  intros w Hw. unfold NearTab_refresh_data.
  rewrite run_bind. cbn [fetch_last run fst snd]. rewrite db_fetch_last_200.
  pose proof (take_order_filled (db w) Hw) as Hrows.
  destruct (take 200 (order_by_created_at_desc (db w))) as [|r rows]; [congruence|].
  rewrite run_bind. cbn [mret M_ret run fst snd].
  rewrite run_bind. cbn [lift run].
  destruct (mapM near_row (r :: rows)); reflexivity.
Qed.

Lemma keeps_filled_db_reload_and_distribute :
  keeps_filled_db (reload_and_distribute env).
Proof.
  unfold reload_and_distribute.
  apply keeps_filled_db_bind; [apply keeps_db_filled, keeps_db_fetch_last|]. intros rows.
  apply keeps_filled_db_bind.
  { apply keeps_db_filled. unfold HomeTab_update_overview.
    apply keeps_db_bind; [apply keeps_db_lift|]. intros; apply keeps_db_emit. }
  intros _. apply keeps_filled_db_bind;
    [apply keeps_db_filled, keeps_db_MapTab_set_data|].
  intros _. apply keeps_filled_db_bind; [apply keeps_filled_db_NearTab_refresh_data|].
  intros _. apply keeps_db_filled.
  apply keeps_db_bind; [apply keeps_db_emit|]. intros _ _.
  apply keeps_db_bind; [apply keeps_db_lift|]. intros; apply keeps_db_emit.
Qed.

(** The only write of a cycle is the upsert of the live batch, and it is
    never undone: when the table after that upsert is not empty, it is the
    table at the end of the cycle, whether the cycle succeeds or is
    abandoned on an exception. *)
Theorem refresh_all_writes_the_live_batch (s : settings) (w : World) :
  let live := (api_get API_LIVE (net env (requests_made w))).1 in
  let st1 := (db_upsert_earthquakes (clock env (S (requests_made w))) live (db w)).1 in
  st1 <> [] -> db (refresh_all env s w).1 = st1.
Proof.
  intros live st1 Hst1.
  assert (Hdb : db (run (refresh_all_try env s) w).1.2 = st1).
  { unfold refresh_all_try, fetch_live_earthquakes.
    rewrite run_bind, run_api_get_io. fold live. cbn [fst snd].
    rewrite run_bind. unfold store_and_notify.
    subst st1. clearbody live. destruct live as [|top rest].
    - cbn [mret M_ret run fst snd].
      rewrite keeps_filled_db_reload_and_distribute; [reflexivity | exact Hst1].
    - rewrite run_bind, run_upsert. cbn [fst snd requests_made count_request db].
      set (st1 := (db_upsert_earthquakes _ (top :: rest) (db w)).1) in *.
      rewrite run_bind. cbn [lift run].
      destruct (get_float top "mag") as [m|ex]; [|reflexivity]. cbn [fst snd].
      assert (Hk : forall w' : World, db w' = st1 ->
                db (run (reload_and_distribute env) w').1.2 = st1).
      { intros w' Hw'. rewrite keeps_filled_db_reload_and_distribute; congruence. }
      destruct (PrimFloat.leb (threshold s) m).
      + rewrite run_bind. cbn [lift run].
        destruct (get top "title" (JStr "")) as [shown|ex]; [|reflexivity].
        cbn [emit run fst snd]. now apply Hk.
      + cbn [mret M_ret run fst snd]. now apply Hk. }
  unfold refresh_all.
  destruct (run (refresh_all_try env s) w) as [[[u|ex] w'] evs]; exact Hdb.
Qed.

End CycleFacts.

Lemma refresh_all_writes_example :
  db (@refresh_all example_runtime example_env DEFAULT_SETTINGS initial_world).1
  = @store_after example_runtime [(example_clock, example_records)].
Proof.
  exact (@refresh_all_writes_the_live_batch example_runtime example_env DEFAULT_SETTINGS
           initial_world ltac:(discriminate)).
Defined.

(** The first record of a batch has a magnitude that does not convert: the
    cycle is abandoned at the notification, after the second record was
    written. *)
Lemma abandoned_cycle_keeps_its_write :
  let env := {| net := fun _ => Response 200
                  (Some (JList [JDict [("earthquake_id", JStr "a"); ("mag", JList [JInt 6])];
                                JDict [("earthquake_id", JStr "b"); ("mag", JFloat 3)]]));
                clock := fun _ => example_clock |} in
  let out := @refresh_all example_runtime env DEFAULT_SETTINGS initial_world in
  map earthquake_id (db out.1) = [SText "b"] /\
  existsb is_refresh_error out.2 = true.
Proof. split; reflexivity. Qed.

Lemma upserted_record_is_fetched_example :
  exists rows,
    db_fetch_last 200
      (@db_upsert_earthquakes example_runtime example_clock
         [JDict [("earthquake_id", JStr "a"); ("title", JStr "first")]] []).1 = Ok rows /\
    map title (List.filter (has_id "a") rows) = [SText "first"].
Proof.
  destruct (@upserted_record_is_fetched example_runtime example_clock
              (JDict [("earthquake_id", JStr "a"); ("title", JStr "first")]) _ "a" [] 200
              eq_refl eq_refl eq_refl ltac:(split; reflexivity)) as (rows & Hrows & Hf).
  exists rows. split; [exact Hrows|]. rewrite Hf. reflexivity.
Defined.

Lemma fetch_last_grows_example :
  exists rows rows',
    db_fetch_last 1 (@store_after example_runtime [(example_clock, example_records)])
      = Ok rows /\
    db_fetch_last 2 (@store_after example_runtime [(example_clock, example_records)])
      = Ok rows' /\
    rows `prefix_of` rows' /\
    (Z.of_nat 2 <= 2 ->
     Permutation rows' (@store_after example_runtime [(example_clock, example_records)])).
Proof.
  exact (fetch_last_grows_with_limit 1 2
           (@store_after example_runtime [(example_clock, example_records)])
           ltac:(split; discriminate) eq_refl).
Defined.

(** ** The largest earthquake of the overview *)

Lemma key_lt_trans (k1 k2 k3 : Z * Z * Z) : key_lt k1 k2 -> key_lt k2 k3 -> key_lt k1 k3.
Proof.
  destruct k1 as [[a1 b1] c1], k2 as [[a2 b2] c2], k3 as [[a3 b3] c3]. simpl. lia.
Qed.

Lemma float_ltb_iff (x y : float) :
  PrimFloat.ltb x y = true <->
  exists k1 k2, sf_key (Prim2SF x) = Some k1 /\ sf_key (Prim2SF y) = Some k2 /\ key_lt k1 k2.
Proof.
  split; [apply float_ltb_key|].
  intros (k1 & k2 & H1 & H2 & Hlt). rewrite ltb_spec. unfold SFltb.
  pose proof (SFcompare_key (Prim2SF x) (Prim2SF y)) as Hc.
  rewrite H1, H2 in Hc.
  destruct (SFcompare (Prim2SF x) (Prim2SF y)) as [[]|]; try contradiction.
  - subst. destruct (key_lt_irrefl_le _ _ Hlt (key_le_refl _)).
  - reflexivity.
  - destruct (key_lt_irrefl_le _ _ Hlt (key_lt_le _ _ Hc)).
Qed.

Lemma float_ltb_trans (x y z : float) :
  PrimFloat.ltb x y = true -> PrimFloat.ltb y z = true -> PrimFloat.ltb x z = true.
Proof.
  rewrite !float_ltb_iff.
  intros (k1 & k2 & H1 & H2 & H12) (k2' & k3 & H2' & H3 & H23).
  rewrite H2 in H2'. injection H2' as <-. exists k1, k3.
  split; [exact H1 | split; [exact H3 | exact (key_lt_trans _ _ _ H12 H23)]].
Qed.

Lemma float_ltb_irrefl (x : float) : PrimFloat.ltb x x = false.
Proof.
  destruct (PrimFloat.ltb x x) eqn:E; [|reflexivity].
  apply float_ltb_key in E as (k1 & k2 & H1 & H2 & Hlt).
  rewrite H1 in H2. injection H2 as <-.
  destruct (key_lt_irrefl_le _ _ Hlt (key_le_refl _)).
Qed.

Section OverviewFacts.
Context `{Runtime}.

Lemma max_by_mag_Ok (best : row) (best_mag : float) (rest : list row) (emax : row) :
  row_mag best = Ok best_mag ->
  max_by_mag best best_mag rest = Ok emax ->
  exists mx, row_mag emax = Ok mx /\
    (emax = best \/ In emax rest) /\
    (mx = best_mag \/ PrimFloat.ltb best_mag mx = true) /\
    forall r m, In r rest -> row_mag r = Ok m -> PrimFloat.ltb mx m = false.
Proof.
  revert best best_mag. induction rest as [|r rest IH]; intros best best_mag Hb Hm.
  - injection Hm as <-. exists best_mag. repeat split; auto. intros r m [].
  - simpl in Hm. apply bind_Ok in Hm as (m & Hr & Hm).
    destruct (PrimFloat.ltb best_mag m) eqn:E.
    + destruct (IH r m Hr Hm) as (mx & Hmx & Hin & Hge & Hall).
      exists mx. split; [exact Hmx|]. split; [right; destruct Hin; [left; auto | now right]|].
      split.
      * right. destruct Hge as [->|Hlt]; [exact E | exact (float_ltb_trans _ _ _ E Hlt)].
      * intros r' m' [<-|Hin'] Hr'; [|eauto].
        rewrite Hr in Hr'. injection Hr' as <-.
        destruct Hge as [->|Hlt]; [apply float_ltb_irrefl|].
        destruct (PrimFloat.ltb mx m) eqn:E'; [|reflexivity].
        pose proof (float_ltb_trans _ _ _ Hlt E') as Hmm.
        now rewrite float_ltb_irrefl in Hmm.
    + destruct (IH best best_mag Hb Hm) as (mx & Hmx & Hin & Hge & Hall).
      exists mx. split; [exact Hmx|]. split; [destruct Hin; [now left | right; now right]|].
      split; [exact Hge|].
      intros r' m' [<-|Hin'] Hr'; [|eauto].
      rewrite Hr in Hr'. injection Hr' as <-.
      destruct Hge as [->|Hlt]; [exact E|].
      destruct (PrimFloat.ltb mx m) eqn:E'; [|reflexivity].
      now rewrite (float_ltb_trans _ _ _ Hlt E') in E.
Qed.

(** The row the overview shows as the largest is a row of the list, and no
    row of the list has a greater magnitude. *)
Theorem largest_row_is_maximal (rows : list row) (emax : row) :
  largest_row rows = Ok (Some emax) ->
  In emax rows /\
  exists mx, row_mag emax = Ok mx /\
    forall r m, In r rows -> row_mag r = Ok m -> PrimFloat.ltb mx m = false.
Proof.
  destruct rows as [|r rest]; [discriminate|]. simpl.
  intros Hl. apply bind_Ok in Hl as (m & Hr & Hl). apply bind_Ok in Hl as (best & Hb & Hl).
  injection Hl as <-.
  destruct (max_by_mag_Ok r m rest best Hr Hb) as (mx & Hmx & Hin & Hge & Hall).
  split; [destruct Hin; [left; auto | now right]|].
  exists mx. split; [exact Hmx|].
  intros r' m' [<-|Hin'] Hr'; [|eauto].
  rewrite Hr in Hr'. injection Hr' as <-.
  destruct Hge as [->|Hlt]; [apply float_ltb_irrefl|].
  destruct (PrimFloat.ltb mx m) eqn:E'; [|reflexivity].
  pose proof (float_ltb_trans _ _ _ Hlt E') as Hmm.
  now rewrite float_ltb_irrefl in Hmm.
Qed.

End OverviewFacts.

Lemma largest_row_example :
  let st := @store_after example_runtime [(example_clock, example_records)] in
  exists emax, @largest_row example_runtime st = Ok (Some emax) /\
               earthquake_id emax = SText "a" /\ In emax st.
Proof.
  intros st. eexists. split; [reflexivity|]. split; [reflexivity|].
  exact (proj1 (@largest_row_is_maximal example_runtime st _ eq_refl)).
Defined.

(** ** What a well-typed record becomes *)

Lemma bind_int_Ok (z z' : Z) : bind_int z = Ok z' -> z' = z.
Proof. unfold bind_int. destruct (int64 z); [now intros [= <-] | discriminate]. Qed.

Section RecordFacts.
Context `{Runtime}.

Lemma normalize_text_fields (now : Z) (e : json) (r : row) :
  normalize now e = Ok r ->
  exists gid ttl c g t,
    get_or e "earthquake_id" (JStr "") = Ok gid /\
    get_or e "title" (JStr "") = Ok ttl /\
    get_or e "created_at" (JInt now) = Ok c /\
    py_int c = Ok (created_at r) /\
    bind gid = Ok g /\ earthquake_id r = text_affinity g /\
    bind ttl = Ok t /\ title r = text_affinity t.
Proof.
  unfold normalize. intros Hn.
  apply bind_Ok in Hn as (p & Hp & Hb).
  unfold row_params in Hp.
  repeat match type of Hp with
  | _ ≫= _ = Ok _ =>
      let a := fresh "a" in let E := fresh "E" in
      apply bind_Ok in Hp; destruct Hp as (a & E & Hp)
  end.
  injection Hp as <-.
  unfold bind_row in Hb. cbn [p_gid p_prov p_title p_date p_mag p_depth p_lon p_lat
    p_created_at p_cc_name p_cc_code p_cc_dist p_cc_pop p_epi_name p_airports] in Hb.
  inv_binds. subst r. cbn [earthquake_id title created_at].
  match goal with Hi : bind_int _ = Ok _ |- _ => apply bind_int_Ok in Hi; subst end.
  do 5 eexists. repeat split; eassumption || reflexivity.
Qed.

(** A record that is stored keeps its own values: a non-empty string
    [earthquake_id] is the key, a string [title] is the title, a non-zero
    integer [created_at] is the time (the clock reading when the key is
    missing), and a float [mag] that is not a NaN is stored as a float equal
    to it. *)
Theorem stored_record_keeps_its_values (now : Z) (kvs : list (string * json))
    (r : row) :
  normalize now (JDict kvs) = Ok r ->
  (forall s, dict_get "earthquake_id" kvs = Some (JStr s) -> s <> "" ->
     earthquake_id r = SText s) /\
  (forall s, dict_get "title" kvs = Some (JStr s) -> title r = SText s) /\
  (forall z, dict_get "created_at" kvs = Some (JInt z) -> z <> 0 -> created_at r = z) /\
  (dict_get "created_at" kvs = None -> created_at r = now) /\
  (forall m, dict_get "mag" kvs = Some (JFloat m) -> PrimFloat.is_nan m = false ->
     exists m', mag r = SReal m' /\ PrimFloat.eqb m' m = true).
Proof.
  intros Hn.
  pose proof (normalize_text_fields now _ r Hn)
    as (gid & ttl & c & g & t & Hgid & Httl & Hc & Hint & Hg & Hid & Ht & Htitle).
  apply normalize_numeric_fields in Hn
    as (m0 & _ & _ & _ & _ & Hm0 & _ & _ & _ & _ & Hmag & _).
  unfold get_or, get, py_or in Hgid, Httl, Hc. unfold get_float, get_or, get, py_or in Hm0.
  cbn [mbind result_bind] in *.
  split; [|split; [|split; [|split]]].
  - intros s Hs Hne. rewrite Hs in Hgid. simpl in Hgid.
    destruct (String.eqb_spec s ""); [contradiction|]. simpl in Hgid.
    injection Hgid as <-. injection Hg as <-. exact Hid.
  - intros s Hs. rewrite Hs in Httl. simpl in Httl.
    destruct (String.eqb s "") eqn:Es; simpl in Httl; injection Httl as <-;
      injection Ht as <-; rewrite Htitle; simpl; [|reflexivity].
    apply String.eqb_eq in Es. now subst.
  - intros z Hz Hne. rewrite Hz in Hc. simpl in Hc.
    destruct (Z.eqb_spec z 0); [contradiction|]. simpl in Hc.
    injection Hc as <-. simpl in Hint. now injection Hint as <-.
  - intros Hnone. rewrite Hnone in Hc. simpl in Hc.
    injection Hc as <-. simpl in Hint. now injection Hint as <-.
  - intros m Hm Hnan. rewrite Hm in Hm0. simpl in Hm0.
    destruct (PrimFloat.is_zero m) eqn:Ez; simpl in Hm0; injection Hm0 as <-.
    + exists 0%float. split; [rewrite Hmag; reflexivity|].
      apply float_eqb_sym. exact Ez.
    + rewrite Hmag. exact (stored_float_is_equal m Hnan).
Qed.

End RecordFacts.

Lemma stored_record_example :
  exists r,
    @normalize example_runtime 5
      (JDict [("earthquake_id", JStr "a"); ("title", JStr "Ege"); ("mag", JFloat 6.5)])
    = Ok r /\
    earthquake_id r = SText "a" /\ title r = SText "Ege" /\ created_at r = 5.
Proof.
  eexists. split; [reflexivity|].
  destruct (@stored_record_keeps_its_values example_runtime 5
              [("earthquake_id", JStr "a"); ("title", JStr "Ege"); ("mag", JFloat 6.5)]
              _ eq_refl) as (Hid & Htitle & _ & Hnow & _).
  split; [apply Hid; [reflexivity | discriminate]|].
  split; [apply Htitle; reflexivity | apply Hnow; reflexivity].
Defined.

(** ** The life of the map worker *)

